(** * PhotoPay backend: purchase confirmation and ledger reconciliation

    A shallow embedding of the purchase endpoints of [backend/main.py]
    ([initiate_purchase], [confirm_purchase]), of the transaction verifier
    of [backend/services/solana_service.py] and of the tables of
    [backend/models.py], followed by the properties of the payment
    confirmation flow.

    Python [float] is IEEE binary64, embedded as Rocq's primitive [float];
    Python [int] is [Z]; [str] is [string]; [datetime] is a [Z] timestamp.
    The relational session and the remote services are an explicit world
    threaded through a state-and-exception monad. *)

From Stdlib Require Import ZArith Floats Ascii String.
From stdpp Require Import base option list strings.

Set Warnings "-inexact-float".
Local Open Scope Z_scope.
Local Open Scope string_scope.

(** ** backend/models.py *)

Module Models.

Inductive UserRole := CREATOR | BUYER.

Inductive TransactionStatus := PENDING | CONFIRMED | FAILED.

Global Instance TransactionStatus_eq_dec : EqDecision TransactionStatus.
Proof. solve_decision. Defined.

Definition datetime := Z.

Record User := {
  wallet_address : string;
  username : option string;
  role : UserRole;
  created_at : datetime
}.

Record Listing := {
  listing_pk : string;
  title : string;
  description : option string;
  price_sol : float;
  creator_wallet : string;
  file_id : string;
  file_url : string;
  preview_url : option string;
  is_active : bool;
  listing_created_at : datetime
}.

Record Purchase := {
  id : string;
  listing_id : string;
  buyer_wallet : string;
  transaction_signature : string;
  amount_sol : float;
  status : TransactionStatus;
  purchased_at : datetime;
  confirmed_at : option datetime
}.

End Models.
Import Models.

(** ** backend/schemas.py: request and response bodies *)

Module Schemas.

Record PurchaseCreate := {
  pc_listing_id : string;
  pc_buyer_wallet : string
}.

Record PurchaseConfirm := {
  cf_listing_id : string;
  cf_buyer_wallet : string;
  cf_transaction_signature : string
}.

End Schemas.
Import Schemas.

(** ** The world the handlers run in *)

(** Exceptions. [HTTPException] is the only class the handlers tell
    apart; every other exception (KeyError, TypeError, a timeout of the
    RPC client, ...) is an [Exception] carrying its [str(e)]. *)
Inductive exn :=
| HTTPException (status_code : Z) (detail : string)
| Exception (message : string).

Definition str (e : exn) : string :=
  match e with
  | HTTPException _ detail => detail
  | Exception message => message
  end.

Inductive Result (A : Type) :=
| Return (a : A)
| Raise (e : exn).
Arguments Return {A} a.
Arguments Raise {A} e.

(** What the jsonParsed encoding of one instruction gives to the reads
    the verifier performs; [None] stands for a read that raises (a
    missing key, a value of another shape). [lamports] is the outcome of
    [int(info['lamports'])]. *)
Record TransferInfo := {
  source : option string;
  destination : option string;
  lamports : option Z
}.

Record ParsedData := {
  parsed_type : option string;
  parsed_info : option TransferInfo
}.

Inductive Instruction :=
| PartiallyDecoded                      (* has no attribute [parsed] *)
| ParsedInstruction (parsed : ParsedData).

Record TransactionMeta := { err : option string }.

(** [response.value] of [get_transaction]: [tx.transaction.meta] (absent
    in some replies) and [tx.transaction.transaction.message.instructions]. *)
Record TransactionRecord := {
  meta : option TransactionMeta;
  instructions : list Instruction
}.

Inductive GetTransactionResp :=
| TxRaises (message : string)                (* timeout, transport failure *)
| TxValue (value : option TransactionRecord).

Inductive LatestBlockhashResp :=
| BhRaises (message : string)
| BhNoValue
| BhValue (blockhash : string) (last_valid_block_height : Z).

(** Reply of the fee gateway's [/v1/priority-fee]: the HTTP status and
    the [priorityFee] field of the body, or a failed request. *)
Inductive GatewayResp :=
| GwRaises (message : string)
| GwStatus (status_code : Z) (priorityFee : option Z).

(** The surroundings of one request: the ledger node, the two solders
    parsers, the fee gateway, the clock and the UUID source. *)
Record Env := {
  Signature_from_string : string -> bool;
  Pubkey_from_string : string -> bool;
  rpc_get_transaction : string -> GetTransactionResp;
  rpc_get_latest_blockhash : LatestBlockhashResp;
  gateway_enabled : bool;
  gateway_priority_fee : GatewayResp;
  clock : datetime;
  fresh_uuid : string
}.

Inductive RpcCall :=
| GetTransaction (signature : string)
| GetLatestBlockhash.

Record Session := {
  users : list User;
  listings : list Listing;
  purchases : list Purchase
}.

(** The committed tables, the ledger calls made so far (oldest first) and
    what was printed. *)
Record World := {
  db : Session;
  rpc_calls : list RpcCall;
  stdout : list string
}.

(** ** State-and-exception monad *)

Definition M (A : Type) : Type := Env -> World -> Result A * World.

Definition ret {A} (a : A) : M A := fun _ w => (Return a, w).

Definition raise {A} (e : exn) : M A := fun _ w => (Raise e, w).

Definition bind {A B} (m : M A) (k : A -> M B) : M B :=
  fun env w =>
    match m env w with
    | (Return a, w') => k a env w'
    | (Raise e, w') => (Raise e, w')
    end.

Definition try_except {A} (body : M A) (handler : exn -> M A) : M A :=
  fun env w =>
    match body env w with
    | (Raise e, w') => handler e env w'
    | r => r
    end.

Definition lift {A} (r : Result A) : M A := fun _ w => (r, w).

Declare Scope py_scope.
Delimit Scope py_scope with py.
Notation "'do' x <- m ; k" := (bind m (fun x => k))
  (at level 10, x name, m at level 100, k at level 200) : py_scope.
Notation "m ;; k" := (bind m (fun _ => k))
  (at level 100, k at level 200, right associativity) : py_scope.
Local Open Scope py_scope.

Definition ask {A} (f : Env -> A) : M A := fun env w => (Return (f env), w).

Definition print (line : string) : M unit :=
  fun _ w => (Return tt, {| db := db w; rpc_calls := rpc_calls w;
                            stdout := stdout w ++ [line] |}).

Definition log_rpc (c : RpcCall) : M unit :=
  fun _ w => (Return tt, {| db := db w; rpc_calls := rpc_calls w ++ [c];
                            stdout := stdout w |}).

Definition get_db : M Session := fun _ w => (Return (db w), w).

Definition put_db (s : Session) : M unit :=
  fun _ w => (Return tt, {| db := s; rpc_calls := rpc_calls w;
                            stdout := stdout w |}).

Definition utcnow : M datetime := ask clock.

Definition uuid4 : M string := ask fresh_uuid.

(** ** backend/services/solana_service.py *)

Module SolanaService.

(** Python's [int / int]: the quotient of the two integers rounded once
    to binary64; OverflowError when it is out of range. *)
Definition SF_of_int (n : Z) : spec_float :=
  match n with
  | Z0 => S754_zero false
  | Zpos p => S754_finite false p 0
  | Zneg p => S754_finite true p 0
  end.

Definition int_truediv (a b : Z) : Result float :=
  match SFdiv prec emax (SF_of_int a) (SF_of_int b) with
  | S754_nan => Raise (Exception "division by zero")
  | S754_infinity _ =>
      Raise (Exception "integer division result too large for a float")
  | q => Return (SF2Prim q)
  end.

(** Python's [int(x)] on a float: truncation towards zero. *)
Definition int_of_float (x : float) : Result Z :=
  match Prim2SF x with
  | S754_zero _ => Return 0
  | S754_infinity _ =>
      Raise (Exception "cannot convert float infinity to integer")
  | S754_nan => Raise (Exception "cannot convert float NaN to integer")
  | S754_finite s m e =>
      let a := Z.shiftl (Z.pos m) e in
      Return (if s then - a else a)
  end.

Definition lamports_to_sol (lamports : Z) : Result float :=
  int_truediv lamports 1000000000.

Definition sol_to_lamports (sol : float) : Result Z :=
  int_of_float (sol * 1000000000)%float.

(** A subscript or attribute read that raises when the value is absent. *)
Definition getitem {A} (key : string) (v : option A) : M A :=
  match v with
  | Some a => ret a
  | None => raise (Exception key)
  end.

(** [Signature.from_string(signature)]: ValueError on a malformed one. *)
Definition signature_from_string (signature : string) : M string :=
  do ok <- ask (fun env => Signature_from_string env signature);
  if ok : bool then ret signature
  else raise (Exception "Invalid signature").

Definition pubkey_from_string (address : string) : M string :=
  do ok <- ask (fun env => Pubkey_from_string env address);
  if ok : bool then ret address
  else raise (Exception "Invalid pubkey").

(** [await self.client.get_transaction(sig, ...)]: one ledger call. *)
Definition client_get_transaction (sig : string)
  : M (option TransactionRecord) :=
  log_rpc (GetTransaction sig);;
  do reply <- ask (fun env => rpc_get_transaction env sig);
  match reply with
  | TxRaises message => raise (Exception message)
  | TxValue value => ret value
  end.

(** [await self.client.get_latest_blockhash()]; the attribute reads on a
    reply without [value] are folded into the reply. *)
Definition client_get_latest_blockhash : M LatestBlockhashResp :=
  log_rpc GetLatestBlockhash;;
  do reply <- ask rpc_get_latest_blockhash;
  match reply with
  | BhRaises message => raise (Exception message)
  | r => ret r
  end.

(** The dictionary handed to the frontend. *)
Record TransactionData := {
  instruction_type : string;
  from_pubkey : string;
  to_pubkey : string;
  td_lamports : Z;
  td_amount_sol : float;
  recent_blockhash : string;
  td_last_valid_block_height : Z;
  td_message : string;
  priority_fee : option Z;
  optimized : option bool
}.

Definition create_transfer_transaction
    (from_wallet to_wallet : string) (amount_sol : float)
  : M TransactionData :=
  try_except
    (do from_pubkey <- pubkey_from_string from_wallet;
     do to_pubkey <- pubkey_from_string to_wallet;
     do lamports <- lift (sol_to_lamports amount_sol);
     do response <- client_get_latest_blockhash;
     match response with
     | BhValue recent_blockhash last_valid_block_height =>
         ret {| instruction_type := "transfer";
                from_pubkey := from_wallet;
                to_pubkey := to_wallet;
                td_lamports := lamports;
                td_amount_sol := amount_sol;
                recent_blockhash := recent_blockhash;
                td_last_valid_block_height := last_valid_block_height;
                td_message := "Build transaction in frontend using this data";
                priority_fee := None;
                optimized := None |}
     | _ => raise (Exception "Invalid RPC response")
     end)
    (fun e => raise (Exception ("Failed to create transaction: " ++ str e))).

(** The tolerance of the amount comparison: the literal [0.000001]. *)
Definition epsilon : float := 0.000001%float.

(** The [for ix in instructions] loop of [verify_transaction]: [true]
    at the first matching transfer, [false] when the list is exhausted;
    a read that raises leaves the loop. *)
Fixpoint scan_instructions
    (expected_sender expected_receiver : string)
    (expected_amount_sol : float)
    (instructions : list Instruction) : M bool :=
  match instructions with
  | [] => ret false
  | ix :: rest =>
      let continue :=
        scan_instructions expected_sender expected_receiver
                          expected_amount_sol rest in
      match ix with
      | PartiallyDecoded => continue
      | ParsedInstruction parsed =>
          do ty <- getitem "type" (parsed_type parsed);
          if String.eqb ty "transfer" then
            do info <- getitem "info" (parsed_info parsed);
            do sender <- getitem "source" (source info);
            do receiver <- getitem "destination" (destination info);
            do lamports <- getitem "lamports" (lamports info);
            do amount_sol <- lift (lamports_to_sol lamports);
            if String.eqb sender expected_sender
               && String.eqb receiver expected_receiver
               && (abs (amount_sol - expected_amount_sol) <? epsilon)%float
            then ret true
            else continue
          else continue
      end
  end.

Definition verify_transaction
    (signature expected_sender expected_receiver : string)
    (expected_amount_sol : float) : M bool :=
  try_except
    (do sig <- signature_from_string signature;
     do value <- client_get_transaction sig;
     match value with
     | None => ret false
     | Some tx =>
         do m <- getitem "meta" (meta tx);
         match err m with
         | Some _ => ret false
         | None =>
             scan_instructions expected_sender expected_receiver
                               expected_amount_sol (instructions tx)
         end
     end)
    (fun e =>
       print ("Transaction verification error: " ++ str e);;
       ret false).

End SolanaService.
Import SolanaService.

(** ** backend/services/gateway_service.py *)

Module GatewayService.

(** The second definition of [get_priority_fee_estimate] in the class
    body is the one in force. *)
Definition get_priority_fee_estimate : M (option Z) :=
  do enabled <- ask gateway_enabled;
  if negb enabled then ret None
  else
    do reply <- ask gateway_priority_fee;
    match reply with
    | GwStatus 200 fee => ret fee
    | GwStatus _ _ => ret None
    | GwRaises message =>
        print ("Failed to get priority fee: " ++ message);;
        ret None
    end.

End GatewayService.
Import GatewayService.

(** ** backend/utils/helper.py *)

Module Helper.

Definition in_range (lo hi c : Ascii.ascii) : bool :=
  (Ascii.leb lo c && Ascii.leb c hi)%bool.

(** The character class [[1-9A-HJ-NP-Za-km-z]]. *)
Definition is_base58_char (c : Ascii.ascii) : bool :=
  (in_range "1"%char "9"%char c
   || in_range "A"%char "H"%char c
   || in_range "J"%char "N"%char c
   || in_range "P"%char "Z"%char c
   || in_range "a"%char "k"%char c
   || in_range "m"%char "z"%char c)%bool.

Definition base58_32_44 (s : string) : bool :=
  (forallb is_base58_char (list_ascii_of_string s)
   && (32 <=? String.length s)%nat && (String.length s <=? 44)%nat)%bool.

(** [s] without its last character when that is a line feed. *)
Fixpoint chomp (s : string) : option string :=
  match s with
  | EmptyString => None
  | String c EmptyString =>
      if Ascii.eqb c "010"%char then Some EmptyString else None
  | String c rest => option_map (String c) (chomp rest)
  end.

(** [re.match(r'^[1-9A-HJ-NP-Za-km-z]{32,44}$', address)]: [$] also
    matches just before a line feed that ends the string. *)
Definition is_valid_solana_address (address : string) : bool :=
  (base58_32_44 address
   || match chomp address with
      | Some body => base58_32_44 body
      | None => false
      end)%bool.

End Helper.
Import Helper.

(** ** backend/main.py: the purchase endpoints *)

Module Main.

Record PurchaseInitResponse := {
  transaction_data : TransactionData;
  init_listing : Listing;
  init_amount_sol : float
}.

(** [db.add(row); db.commit()] on each table: the row is appended.
    Commits are taken to succeed. *)
Definition add_user (u : User) : M unit :=
  do s <- get_db;
  put_db {| users := users s ++ [u]; listings := listings s;
            purchases := purchases s |}.

Definition add_purchase (p : Purchase) : M unit :=
  do s <- get_db;
  put_db {| users := users s; listings := listings s;
            purchases := purchases s ++ [p] |}.

(** Attribute writes on the row [i] followed by [db.commit()]. *)
Definition update_purchase (i : nat) (p : Purchase) : M unit :=
  do s <- get_db;
  put_db {| users := users s; listings := listings s;
            purchases := <[i := p]> (purchases s) |}.

(** [Purchase(...)] as flushed: [id] and [purchased_at] take their
    column defaults. *)
Definition new_Purchase (listing_id buyer_wallet transaction_signature : string)
    (amount_sol : float) (status : TransactionStatus)
    (confirmed_at : option datetime) : M Purchase :=
  do pk <- uuid4;
  do now <- utcnow;
  ret {| id := pk; listing_id := listing_id; buyer_wallet := buyer_wallet;
         transaction_signature := transaction_signature;
         amount_sol := amount_sol; status := status;
         purchased_at := now; confirmed_at := confirmed_at |}.

Definition is_truthy (fee : option Z) : bool :=
  match fee with
  | Some n => negb (Z.eqb n 0)
  | None => false
  end.

Definition with_priority_fee (t : TransactionData) (fee : option Z)
  : TransactionData :=
  {| instruction_type := instruction_type t; from_pubkey := from_pubkey t;
     to_pubkey := to_pubkey t; td_lamports := td_lamports t;
     td_amount_sol := td_amount_sol t;
     recent_blockhash := recent_blockhash t;
     td_last_valid_block_height := td_last_valid_block_height t;
     td_message := td_message t;
     priority_fee := fee; optimized := Some true |}.

Definition initiate_purchase (purchase_data : PurchaseCreate)
  : M PurchaseInitResponse :=
  if negb (is_valid_solana_address (pc_buyer_wallet purchase_data)) then
    raise (HTTPException 400 "Invalid buyer wallet address")
  else
  do s <- get_db;
  match list_find (fun l => listing_pk l = pc_listing_id purchase_data
                            /\ is_active l = true) (listings s) with
  | None => raise (HTTPException 404 "Listing not found or inactive")
  | Some (_, listing) =>
  match list_find (fun p => listing_id p = pc_listing_id purchase_data
                            /\ buyer_wallet p = pc_buyer_wallet purchase_data
                            /\ status p = CONFIRMED) (purchases s) with
  | Some _ => raise (HTTPException 409 "You already own this artwork")
  | None =>
  (match list_find (fun u => wallet_address u = pc_buyer_wallet purchase_data)
                   (users s) with
   | Some _ => ret tt
   | None =>
       do now <- utcnow;
       add_user {| wallet_address := pc_buyer_wallet purchase_data;
                   username := None; role := BUYER; created_at := now |}
   end);;
  try_except
    (do transaction_data <-
        create_transfer_transaction (pc_buyer_wallet purchase_data)
                                    (creator_wallet listing)
                                    (price_sol listing);
     do enabled <- ask gateway_enabled;
     do transaction_data <-
        (if enabled : bool then
           do fee <- get_priority_fee_estimate;
           if is_truthy fee then ret (with_priority_fee transaction_data fee)
           else ret transaction_data
         else ret transaction_data);
     ret {| transaction_data := transaction_data;
            init_listing := listing;
            init_amount_sol := price_sol listing |})
    (fun e =>
       raise (HTTPException 500 ("Failed to create transaction: " ++ str e)))
  end
  end.

Definition confirm_purchase (confirm_data : PurchaseConfirm) : M Purchase :=
  do s <- get_db;
  match list_find (fun l => listing_pk l = cf_listing_id confirm_data)
                  (listings s) with
  | None => raise (HTTPException 404 "Listing not found")
  | Some (_, listing) =>
  let existing :=
    list_find (fun p => transaction_signature p
                        = cf_transaction_signature confirm_data)
              (purchases s) in
  let verify_and_record : M Purchase :=
    try_except
      (do is_valid <-
          verify_transaction (cf_transaction_signature confirm_data)
                             (cf_buyer_wallet confirm_data)
                             (creator_wallet listing)
                             (price_sol listing);
       if negb is_valid then
         raise (HTTPException 400
           "Transaction verification failed. Please ensure transaction is confirmed on-chain.")
       else
         match existing with
         | Some (i, existing) =>
             do now <- utcnow;
             let existing :=
               {| id := id existing; listing_id := listing_id existing;
                  buyer_wallet := buyer_wallet existing;
                  transaction_signature := transaction_signature existing;
                  amount_sol := amount_sol existing;
                  status := CONFIRMED;
                  purchased_at := purchased_at existing;
                  confirmed_at := Some now |} in
             update_purchase i existing;;
             ret existing
         | None =>
             do now <- utcnow;
             do new_purchase <-
                new_Purchase (cf_listing_id confirm_data)
                             (cf_buyer_wallet confirm_data)
                             (cf_transaction_signature confirm_data)
                             (price_sol listing) CONFIRMED (Some now);
             add_purchase new_purchase;;
             ret new_purchase
         end)
      (fun e =>
         match e with
         | HTTPException _ _ => raise e
         | Exception _ =>
             (match existing with
              | Some _ => ret tt
              | None =>
                  do pending_purchase <-
                     new_Purchase (cf_listing_id confirm_data)
                                  (cf_buyer_wallet confirm_data)
                                  (cf_transaction_signature confirm_data)
                                  (price_sol listing) PENDING None;
                  add_purchase pending_purchase
              end);;
             raise (HTTPException 500
                      ("Failed to verify transaction: " ++ str e))
         end) in
  match existing with
  | Some (_, existing) =>
      match status existing with
      | CONFIRMED => ret existing
      | PENDING => verify_and_record          (* re-verify if still pending *)
      | FAILED => verify_and_record           (* no branch: falls through *)
      end
  | None => verify_and_record
  end
  end.

End Main.
Import Main.

(** ** backend/main.py: the user, listing and content endpoints *)

Module Endpoints.

Record UserCreate := {
  uc_wallet_address : string;
  uc_username : option string;
  uc_role : UserRole
}.

Record UnlockedContent := {
  unlocked_listing_id : string;
  unlocked_title : string;
  unlocked_file_url : string;
  unlocked_purchased_at : datetime
}.

(** Python's truth value of an optional string: [None] and the empty
    string are false. *)
Definition nonempty (name : option string) : bool :=
  match name with
  | Some s => negb (String.eqb s "")
  | None => false
  end.

(** [db.add(new_user); db.commit()] under the constraints of the users
    table: [wallet_address] is the primary key and [username] is unique
    among the rows that have one. A violation is an IntegrityError. *)
Definition violates (u : User) (v : User) : Prop :=
  wallet_address v = wallet_address u
  \/ (username u <> None /\ username v = username u).

Definition commit_new_user (u : User) : M unit :=
  do s <- get_db;
  if bool_decide (Exists (violates u) (users s)) then
    raise (Exception "IntegrityError")
  else
    put_db {| users := users s ++ [u]; listings := listings s;
              purchases := purchases s |}.

Definition create_user (user_data : UserCreate) : M User :=
  if negb (is_valid_solana_address (uc_wallet_address user_data)) then
    raise (HTTPException 400 "Invalid Solana wallet address")
  else
  do s <- get_db;
  match list_find (fun u => wallet_address u = uc_wallet_address user_data)
                  (users s) with
  | Some _ =>
      raise (HTTPException 409 "User with this wallet address already exists")
  | None =>
  (if nonempty (uc_username user_data) then
     match list_find (fun u => username u = uc_username user_data)
                     (users s) with
     | Some _ => raise (HTTPException 409 "Username already taken")
     | None => ret tt
     end
   else ret tt);;
  do now <- utcnow;
  let new_user :=
    {| wallet_address := uc_wallet_address user_data;
       username := uc_username user_data;
       role := uc_role user_data; created_at := now |} in
  commit_new_user new_user;;
  ret new_user
  end.

Definition get_user (wallet : string) : M User :=
  if negb (is_valid_solana_address wallet) then
    raise (HTTPException 400 "Invalid wallet address")
  else
  do s <- get_db;
  match list_find (fun u => wallet_address u = wallet) (users s) with
  | None => raise (HTTPException 404 "User not found")
  | Some (_, user) => ret user
  end.

Definition update_user (wallet : string) (new_name : option string)
  : M User :=
  do s <- get_db;
  match list_find (fun u => wallet_address u = wallet) (users s) with
  | None => raise (HTTPException 404 "User not found")
  | Some (i, user) =>
      if nonempty new_name then
        match list_find (fun u => username u = new_name
                                  /\ wallet_address u <> wallet)
                        (users s) with
        | Some _ => raise (HTTPException 409 "Username already taken")
        | None =>
            let user :=
              {| wallet_address := wallet_address user;
                 username := new_name; role := role user;
                 created_at := created_at user |} in
            put_db {| users := <[i := user]> (users s);
                      listings := listings s; purchases := purchases s |};;
            ret user
        end
      else ret user
  end.

Definition get_listing (listing_id : string) : M Listing :=
  do s <- get_db;
  match list_find (fun l => listing_pk l = listing_id) (listings s) with
  | None => raise (HTTPException 404 "Listing not found")
  | Some (_, listing) => ret listing
  end.

(** The listing with [is_active] written to [False]. *)
Definition deactivated (l : Listing) : Listing :=
  {| listing_pk := listing_pk l; title := title l;
     description := description l; price_sol := price_sol l;
     creator_wallet := creator_wallet l; file_id := file_id l;
     file_url := file_url l; preview_url := preview_url l;
     is_active := false; listing_created_at := listing_created_at l |}.

Definition delete_listing (listing_id wallet : string) : M unit :=
  do s <- get_db;
  match list_find (fun l => listing_pk l = listing_id) (listings s) with
  | None => raise (HTTPException 404 "Listing not found")
  | Some (i, listing) =>
      if negb (String.eqb (creator_wallet listing) wallet) then
        raise (HTTPException 403 "Not authorized to delete this listing")
      else
        put_db {| users := users s;
                  listings := <[i := deactivated listing]> (listings s);
                  purchases := purchases s |}
  end.

(** One row of [db.query(Purchase).join(Listing)]: the purchase with the
    listing its foreign key names; a purchase without one is not in the
    join. [confirmed_at or purchased_at] picks [confirmed_at] when it is
    set. The keyword [fie_id] is no field of the response and is dropped. *)
Definition unlocked_row (s : Session) (purchase : Purchase)
  : option UnlockedContent :=
  match list_find (fun l => listing_pk l = listing_id purchase)
                  (listings s) with
  | None => None
  | Some (_, listing) =>
      Some {| unlocked_listing_id := listing_pk listing;
              unlocked_title := title listing;
              unlocked_file_url := file_url listing;
              unlocked_purchased_at :=
                match confirmed_at purchase with
                | Some t => t
                | None => purchased_at purchase
                end |}
  end.

Definition get_unlocked_content (buyer : string) : M (list UnlockedContent) :=
  if negb (is_valid_solana_address buyer) then
    raise (HTTPException 400 "Invalid wallet address")
  else
  do s <- get_db;
  let purchases :=
    filter (fun p => buyer_wallet p = buyer /\ status p = CONFIRMED)
           (purchases s) in
  ret (omap (unlocked_row s) purchases).

End Endpoints.
Import Endpoints.

(** ** Concrete worlds used by the examples below *)

Module Scenario.

Definition creator : string := "CreatorWa11et1111111111111111111111111111".
Definition buyer : string := "BuyerWa11et11111111111111111111111111111".
Definition other_buyer : string := "SecondBuyer11111111111111111111111111111".

Definition listing_at (price : float) : Listing :=
  {| listing_pk := "listing-1"; title := "Sunset"; description := None;
     price_sol := price; creator_wallet := creator;
     file_id := "file-1"; file_url := "https://storage/file-1";
     preview_url := Some "https://storage/file-1";
     is_active := true; listing_created_at := 100 |}.

Definition purchase_with (pk signature : string) (st : TransactionStatus)
    (at_ : option datetime) : Purchase :=
  {| id := pk; listing_id := "listing-1"; buyer_wallet := buyer;
     transaction_signature := signature; amount_sol := 1.5%float;
     status := st; purchased_at := 200; confirmed_at := at_ |}.

Definition world_with (price : float) (ps : list Purchase) : World :=
  {| db := {| users := []; listings := [listing_at price]; purchases := ps |};
     rpc_calls := []; stdout := [] |}.

(** A system-program transfer as jsonParsed shows it. *)
Definition transfer (src dst : string) (amount : Z) : Instruction :=
  ParsedInstruction
    {| parsed_type := Some "transfer";
       parsed_info := Some {| source := Some src; destination := Some dst;
                              lamports := Some amount |} |}.

Definition executed (ixs : list Instruction) : TransactionRecord :=
  {| meta := Some {| err := None |}; instructions := ixs |}.

Definition failed_on_chain (ixs : list Instruction) : TransactionRecord :=
  {| meta := Some {| err := Some "InstructionError" |}; instructions := ixs |}.

(** A request environment whose ledger node answers every lookup with
    [reply]. *)
Definition env_with (reply : GetTransactionResp) : Env :=
  {| Signature_from_string := fun _ => true;
     Pubkey_from_string := fun _ => true;
     rpc_get_transaction := fun _ => reply;
     rpc_get_latest_blockhash := BhValue "blockhash-1" 5000;
     gateway_enabled := false;
     gateway_priority_fee := GwStatus 200 None;
     clock := 300;
     fresh_uuid := "uuid-new" |}.

Definition env_paying (amount : Z) : Env :=
  env_with (TxValue (Some (executed [transfer buyer creator amount]))).

Definition env_timeout : Env := env_with (TxRaises "timed out").

Definition env_not_visible : Env := env_with (TxValue None).

Definition confirm_request (signature : string) : PurchaseConfirm :=
  {| cf_listing_id := "listing-1"; cf_buyer_wallet := buyer;
     cf_transaction_signature := signature |}.

(** The buyer already holds a confirmed purchase of the listing. *)
Definition owned_world : World :=
  world_with 1.5 [purchase_with "p1" "sig-1" CONFIRMED (Some 250)].

(** An earlier attempt with the signature is on record as pending. *)
Definition pending_world : World :=
  world_with 1.5 [purchase_with "p1" "sig-1" PENDING None].


Definition initiate_request : PurchaseCreate :=
  {| pc_listing_id := "listing-1"; pc_buyer_wallet := buyer |}.

(** The same tables with every listing offered at [price]. No endpoint
    of [main.py] writes [price_sol] after creation; the change stands
    for an update made in the database. *)
Definition repriced (price : float) (w : World) : World :=
  {| db := {| users := users (db w);
              listings := map (fun l =>
                {| listing_pk := listing_pk l; title := title l;
                   description := description l; price_sol := price;
                   creator_wallet := creator_wallet l;
                   file_id := file_id l; file_url := file_url l;
                   preview_url := preview_url l; is_active := is_active l;
                   listing_created_at := listing_created_at l |})
                (listings (db w));
              purchases := purchases (db w) |};
     rpc_calls := rpc_calls w; stdout := stdout w |}.

End Scenario.
Import Scenario.

(** ** Vocabulary of the properties *)

(** The comparison of [verify_transaction], named. *)
Definition within_tolerance (expected_amount_sol amount_sol : float) : bool :=
  (abs (amount_sol - expected_amount_sol) <? epsilon)%float.

(** An instruction the loop accepts: a parsed transfer from the expected
    sender to the expected receiver, within the tolerance. *)
Definition accepted (expected_sender expected_receiver : string)
    (expected_amount_sol : float) (ix : Instruction) : Prop :=
  exists units amount_sol,
    ix = ParsedInstruction
           {| parsed_type := Some "transfer";
              parsed_info := Some {| source := Some expected_sender;
                                     destination := Some expected_receiver;
                                     lamports := Some units |} |}
    /\ lamports_to_sol units = Return amount_sol
    /\ within_tolerance expected_amount_sol amount_sol = true.

(** An instruction every read of the loop succeeds on. *)
Definition readable (ix : Instruction) : Prop :=
  match ix with
  | PartiallyDecoded => True
  | ParsedInstruction parsed =>
      exists ty, parsed_type parsed = Some ty
        /\ (ty = "transfer" ->
            exists src dst units amount_sol,
              parsed_info parsed = Some {| source := Some src;
                                           destination := Some dst;
                                           lamports := Some units |}
              /\ lamports_to_sol units = Return amount_sol)
  end.

(** The ledger's answer is a rejection: the transaction executed with
    an on-chain error, or none of its instructions is an accepted
    transfer. *)
Inductive ledger_rejects (env : Env)
    (signature sender receiver : string) (amount : float) : Prop :=
| on_chain_failure tx m e :
    rpc_get_transaction env signature = TxValue (Some tx) ->
    meta tx = Some m -> err m = Some e ->
    ledger_rejects env signature sender receiver amount
| no_matching_transfer tx :
    rpc_get_transaction env signature = TxValue (Some tx) ->
    meta tx = Some {| err := None |} ->
    ~ Exists (accepted sender receiver amount) (instructions tx) ->
    ledger_rejects env signature sender receiver amount.

(** The two lookups that open [confirm_purchase]. *)
Definition listing_of (confirm_data : PurchaseConfirm) (w : World)
  : option (nat * Listing) :=
  list_find (fun l => listing_pk l = cf_listing_id confirm_data)
            (listings (db w)).

Definition existing_of (confirm_data : PurchaseConfirm) (w : World)
  : option (nat * Purchase) :=
  list_find (fun p => transaction_signature p
                      = cf_transaction_signature confirm_data)
            (purchases (db w)).

Definition verification_failed : exn :=
  HTTPException 400
    "Transaction verification failed. Please ensure transaction is confirmed on-chain.".

(** The row [existing] after [status] and [confirmed_at] are written. *)
Definition confirmed_now (env : Env) (existing : Purchase) : Purchase :=
  {| id := id existing; listing_id := listing_id existing;
     buyer_wallet := buyer_wallet existing;
     transaction_signature := transaction_signature existing;
     amount_sol := amount_sol existing; status := CONFIRMED;
     purchased_at := purchased_at existing;
     confirmed_at := Some (clock env) |}.

(** The row a first successful confirmation inserts. *)
Definition created_confirmed (confirm_data : PurchaseConfirm) (env : Env)
    (listing : Listing) : Purchase :=
  {| id := fresh_uuid env; listing_id := cf_listing_id confirm_data;
     buyer_wallet := cf_buyer_wallet confirm_data;
     transaction_signature := cf_transaction_signature confirm_data;
     amount_sol := price_sol listing; status := CONFIRMED;
     purchased_at := clock env; confirmed_at := Some (clock env) |}.

Definition with_purchases (w : World) (ps : list Purchase) : World :=
  {| db := {| users := users (db w); listings := listings (db w);
              purchases := ps |};
     rpc_calls := rpc_calls w; stdout := stdout w |}.

(** The unique constraint on [Purchase.transaction_signature]. *)
Definition signatures_unique (w : World) : Prop :=
  NoDup (transaction_signature <$> purchases (db w)).

(** [confirmed_at] is set exactly on the confirmed rows. *)
Definition timestamp_consistent (p : Purchase) : Prop :=
  confirmed_at p <> None <-> status p = CONFIRMED.

Definition consistent (w : World) : Prop :=
  Forall timestamp_consistent (purchases (db w)).

(** Confirmed purchases of one buyer for one listing. *)
Definition owned (listing buyer : string) (w : World) : list Purchase :=
  filter (fun p => listing_id p = listing /\ buyer_wallet p = buyer
                   /\ status p = CONFIRMED) (purchases (db w)).

(** One request served. The user and listing endpoints of [main.py]
    write to their own tables only, and so does whoever edits a listing
    in the database: [step_other] covers them. *)
Inductive step : World -> World -> Prop :=
| step_initiate purchase_data env w :
    step w (snd (initiate_purchase purchase_data env w))
| step_confirm confirm_data env w :
    step w (snd (confirm_purchase confirm_data env w))
| step_other w w' :
    purchases (db w') = purchases (db w) -> step w w'.

(** The states the service reaches from an empty purchases table. *)
Inductive reachable : World -> Prop :=
| reachable_init w : purchases (db w) = [] -> reachable w
| reachable_step w w' : reachable w -> step w w' -> reachable w'.

(** What one step may do to the row at index [i]: it stays in place; a
    confirmed row is left as it is; [confirmed_at] is written only when
    the row becomes confirmed. *)
Definition row_stable (w w' : World) : Prop :=
  forall i p, purchases (db w) !! i = Some p ->
    exists p', purchases (db w') !! i = Some p'
      /\ (status p = CONFIRMED -> p' = p)
      /\ (confirmed_at p' <> confirmed_at p ->
          status p <> CONFIRMED /\ status p' = CONFIRMED).

(** ** Vocabulary of the further properties *)

(** An instruction the loop passes over after looking at its type only:
    it has no attribute [parsed], or its type is not ["transfer"]. *)
Definition skipped (ix : Instruction) : bool :=
  match ix with
  | PartiallyDecoded => true
  | ParsedInstruction parsed =>
      match parsed_type parsed with
      | Some ty => negb (String.eqb ty "transfer")
      | None => false
      end
  end.

(** The primary keys of the users and listings tables, and the unique
    constraint on [User.username] (rows without a username are free). *)
Definition users_unique (w : World) : Prop :=
  NoDup (wallet_address <$> users (db w)).

Definition usernames_unique (w : World) : Prop :=
  forall i j u v,
    users (db w) !! i = Some u -> users (db w) !! j = Some v ->
    username u <> None -> username u = username v -> i = j.

Definition listings_unique (w : World) : Prop :=
  NoDup (listing_pk <$> listings (db w)).

Definition has_user (wallet : string) (w : World) : Prop :=
  exists u, u ∈ users (db w) /\ wallet_address u = wallet.

(** The same request environment with the fee gateway switched off. *)
Definition without_gateway (env : Env) : Env :=
  {| Signature_from_string := Signature_from_string env;
     Pubkey_from_string := Pubkey_from_string env;
     rpc_get_transaction := rpc_get_transaction env;
     rpc_get_latest_blockhash := rpc_get_latest_blockhash env;
     gateway_enabled := false;
     gateway_priority_fee := gateway_priority_fee env;
     clock := clock env;
     fresh_uuid := fresh_uuid env |}.

(** Two transfer descriptions that differ in the gateway's fields only. *)
Definition same_transfer (t t' : TransactionData) : Prop :=
  instruction_type t = instruction_type t'
  /\ from_pubkey t = from_pubkey t'
  /\ to_pubkey t = to_pubkey t'
  /\ td_lamports t = td_lamports t'
  /\ td_amount_sol t = td_amount_sol t'
  /\ recent_blockhash t = recent_blockhash t'
  /\ td_last_valid_block_height t = td_last_valid_block_height t'
  /\ td_message t = td_message t'.

(** A token-program transfer as jsonParsed shows it: its [info] has an
    [amount] and no [lamports]. *)
Definition token_transfer (src dst : string) : Instruction :=
  ParsedInstruction
    {| parsed_type := Some "transfer";
       parsed_info := Some {| source := Some src; destination := Some dst;
                              lamports := None |} |}.

(** A memo instruction: parsed, of another type. *)
Definition memo : Instruction :=
  ParsedInstruction {| parsed_type := Some "memo"; parsed_info := None |}.

(** The five ways through [confirm_purchase]. *)
Inductive outcome (confirm_data : PurchaseConfirm) (env : Env) (w : World)
  : Result Purchase * World -> Prop :=
| out_no_listing :
    listing_of confirm_data w = None ->
    outcome confirm_data env w
      (Raise (HTTPException 404 "Listing not found"), w)
| out_confirmed j listing i existing :
    listing_of confirm_data w = Some (j, listing) ->
    existing_of confirm_data w = Some (i, existing) ->
    status existing = CONFIRMED ->
    outcome confirm_data env w (Return existing, w)
| out_rejected j listing w1 :
    listing_of confirm_data w = Some (j, listing) ->
    (forall i p, existing_of confirm_data w = Some (i, p) ->
                 status p <> CONFIRMED) ->
    verify_transaction (cf_transaction_signature confirm_data)
                       (cf_buyer_wallet confirm_data)
                       (creator_wallet listing) (price_sol listing) env w
    = (Return false, w1) ->
    outcome confirm_data env w (Raise verification_failed, w1)
| out_updated j listing w1 i existing :
    listing_of confirm_data w = Some (j, listing) ->
    existing_of confirm_data w = Some (i, existing) ->
    status existing <> CONFIRMED ->
    verify_transaction (cf_transaction_signature confirm_data)
                       (cf_buyer_wallet confirm_data)
                       (creator_wallet listing) (price_sol listing) env w
    = (Return true, w1) ->
    outcome confirm_data env w
      (Return (confirmed_now env existing),
       with_purchases w1
         (<[i := confirmed_now env existing]> (purchases (db w))))
| out_created j listing w1 :
    listing_of confirm_data w = Some (j, listing) ->
    existing_of confirm_data w = None ->
    verify_transaction (cf_transaction_signature confirm_data)
                       (cf_buyer_wallet confirm_data)
                       (creator_wallet listing) (price_sol listing) env w
    = (Return true, w1) ->
    outcome confirm_data env w
      (Return (created_confirmed confirm_data env listing),
       with_purchases w1
         (purchases (db w)
          ++ [created_confirmed confirm_data env listing])).

(** * Properties *)

(** ** The monad's steps *)

Ltac unfold_monad :=
  unfold getitem, utcnow, uuid4 in *;
  unfold bind, ret, raise, lift, ask, log_rpc, print, get_db, put_db,
    try_except in *.

(** ** Binary64 comparisons *)

Section FloatOrder.

Lemma SFleb_not_SFltb (x y : spec_float) :
  SFleb x y = true -> SFltb y x = false.
Proof.
  unfold SFleb, SFltb.
  destruct x as [sx | sx | | sx mx ex], y as [sy | sy | | sy my ey];
    simpl; try congruence;
    try (destruct sx; simpl; congruence);
    try (destruct sy; simpl; congruence);
    try (destruct sx, sy; simpl; congruence).
  assert (Hm : Pos.compare_cont Eq my mx = CompOpp (Pos.compare_cont Eq mx my))
    by (symmetry; apply (Pos.compare_cont_antisym mx my Eq)).
  destruct sx, sy; simpl; try congruence;
    rewrite (Z.compare_antisym ex ey), Hm;
    destruct (ex ?= ey)%Z; simpl; try congruence;
    destruct (Pos.compare_cont Eq mx my); simpl; congruence.
Qed.

Lemma leb_not_ltb (x y : float) :
  (x <=? y)%float = true -> (y <? x)%float = false.
Proof. rewrite leb_spec, ltb_spec. apply SFleb_not_SFltb. Qed.

End FloatOrder.

(** ** The verifier *)

Section Verifier.

Variables (expected_sender expected_receiver : string).
Variable expected_amount_sol : float.

Local Abbreviation scan :=
  (scan_instructions expected_sender expected_receiver expected_amount_sol).
Local Abbreviation verify signature :=
  (verify_transaction signature expected_sender expected_receiver
                      expected_amount_sol).
Local Abbreviation ok :=
  (accepted expected_sender expected_receiver expected_amount_sol).

Lemma scan_instructions_world ixs env w : snd (scan ixs env w) = w.
Proof.
  induction ixs as [| ix rest IH]; simpl; [reflexivity |].
  destruct ix as [| [ty info]]; [exact IH |]. unfold_monad; simpl.
  destruct ty as [ty |]; [| reflexivity].
  destruct (String.eqb ty "transfer"); [| exact IH].
  destruct info as [[src dst units] |]; simpl; [| reflexivity].
  destruct src; [| reflexivity]. destruct dst; [| reflexivity].
  destruct units; [| reflexivity].
  destruct (lamports_to_sol _); [| reflexivity].
  destruct (_ && _); [reflexivity | exact IH].
Qed.

Lemma scan_instructions_true ixs env w :
  fst (scan ixs env w) = Return true -> Exists ok ixs.
Proof.
  induction ixs as [| ix rest IH]; simpl; [discriminate |].
  destruct ix as [| [ty info]]; [intros; right; auto |]. unfold_monad; simpl.
  destruct ty as [ty |]; [| discriminate].
  destruct (String.eqb_spec ty "transfer") as [-> |]; [| intros; right; auto].
  destruct info as [[src dst units] |]; simpl; [| discriminate].
  destruct src as [src |]; [| discriminate].
  destruct dst as [dst |]; [| discriminate].
  destruct units as [units |]; [| discriminate].
  destruct (lamports_to_sol units) as [amount |] eqn:Hsol; [| discriminate].
  destruct (String.eqb_spec src expected_sender) as [-> |];
    [| intros; right; auto].
  destruct (String.eqb_spec dst expected_receiver) as [-> |];
    [| intros; right; auto].
  simpl. destruct (_ <? _)%float eqn:Hlt; [| intros; right; auto].
  intros _. left. exists units, amount. auto.
Qed.

Lemma scan_instructions_accepts ixs env w :
  Forall readable ixs -> Exists ok ixs -> fst (scan ixs env w) = Return true.
Proof.
  induction ixs as [| ix rest IH]; intros Hread Hex.
  - inversion Hex.
  - inversion Hread as [| ? ? Hix Hrest]; subst. simpl.
    assert (Hnext : Exists (accepted expected_sender expected_receiver
                                     expected_amount_sol) rest ->
              fst (scan_instructions expected_sender expected_receiver
                     expected_amount_sol rest env w) = Return true)
      by auto.
    inversion Hex as [? ? Hacc | ? ? Hacc]; subst.
    + destruct Hacc as (units & amount & -> & Hsol & Htol).
      unfold_monad; simpl. rewrite Hsol, !String.eqb_refl. simpl.
      unfold within_tolerance in Htol. now rewrite Htol.
    + destruct ix as [| [ty info]]; [auto |].
      destruct Hix as (ty' & Hty & Hinfo). simpl in Hty. subst ty.
      unfold_monad; simpl.
      destruct (String.eqb_spec ty' "transfer") as [-> |]; [| auto].
      destruct Hinfo as (src & dst & units & amount & Hi & Hsol);
        [reflexivity |].
      simpl in Hi. subst info. simpl. rewrite Hsol.
      destruct (_ && _); [reflexivity | auto].
Qed.

(** [verify_transaction] catches every exception: it always returns a
    boolean, leaves the tables alone and makes at most one ledger call. *)
Lemma verify_transaction_total signature env w :
  exists b w',
    verify signature env w = (Return b, w')
    /\ db w' = db w
    /\ (rpc_calls w' = rpc_calls w
        \/ rpc_calls w' = (rpc_calls w ++ [GetTransaction signature])%list).
Proof.
  unfold verify_transaction, signature_from_string, client_get_transaction.
  unfold_monad; simpl.
  destruct (Signature_from_string env signature); simpl; [| eauto 6].
  destruct (rpc_get_transaction env signature) as [msg | [tx |]];
    simpl; [eauto 6 | | eauto 6].
  destruct (meta tx) as [[[e |]] |]; simpl; [eauto 6 | | eauto 6].
  match goal with
  | |- context [scan_instructions ?a ?b ?c ?l ?e ?w0] =>
      pose proof (scan_instructions_world l e w0) as Hw;
      destruct (scan_instructions a b c l e w0) as [[r | ex] w1]
  end; simpl in Hw; subst w1; simpl; eauto 6.
Qed.

(** An on-chain error decides the outcome before the instructions are
    looked at. *)
Lemma verify_transaction_err_set signature env w tx m e :
  rpc_get_transaction env signature = TxValue (Some tx) ->
  meta tx = Some m -> err m = Some e ->
  fst (verify signature env w) = Return false.
Proof.
  intros Hrpc Hmeta Herr.
  unfold verify_transaction, signature_from_string, client_get_transaction.
  unfold_monad; simpl.
  destruct (Signature_from_string env signature); simpl; [| reflexivity].
  rewrite Hrpc. simpl. rewrite Hmeta. simpl. now rewrite Herr.
Qed.

(** Acceptance comes from the loop only. *)
Lemma verify_transaction_true signature env w :
  fst (verify signature env w) = Return true ->
  exists tx, Signature_from_string env signature = true
    /\ rpc_get_transaction env signature = TxValue (Some tx)
    /\ meta tx = Some {| err := None |}
    /\ Exists ok (instructions tx).
Proof.
  unfold verify_transaction, signature_from_string, client_get_transaction.
  unfold_monad; simpl.
  destruct (Signature_from_string env signature); simpl; [| discriminate].
  destruct (rpc_get_transaction env signature) as [msg | [tx |]];
    simpl; [discriminate | | discriminate].
  destruct (meta tx) as [[[e |]] |] eqn:Hmeta; simpl;
    [discriminate | | discriminate].
  match goal with
  | |- context [scan_instructions ?a ?b ?c ?l ?e ?w0] =>
      pose proof (scan_instructions_true l e w0) as Hscan;
      destruct (scan_instructions a b c l e w0) as [[[|] | ex] w1]
  end; simpl in *; try discriminate.
  intros _. exists tx. auto.
Qed.

Lemma verify_transaction_accepts signature env w tx :
  Signature_from_string env signature = true ->
  rpc_get_transaction env signature = TxValue (Some tx) ->
  meta tx = Some {| err := None |} ->
  Forall readable (instructions tx) -> Exists ok (instructions tx) ->
  fst (verify signature env w) = Return true.
Proof.
  intros Hsig Hrpc Hmeta Hread Hex.
  unfold verify_transaction, signature_from_string, client_get_transaction.
  unfold_monad; simpl. rewrite Hsig. simpl. rewrite Hrpc. simpl.
  rewrite Hmeta. simpl.
  match goal with
  | |- context [scan_instructions ?a ?b ?c ?l ?e ?w0] =>
      pose proof (scan_instructions_accepts l e w0 Hread Hex) as Hscan;
      destruct (scan_instructions a b c l e w0) as [[r | ex] w1]
  end; simpl in *; [congruence | discriminate].
Qed.

(** A lookup that raises, or finds nothing, gives the same [False]. *)
Lemma verify_transaction_unavailable signature env w :
  (exists message, rpc_get_transaction env signature = TxRaises message)
  \/ rpc_get_transaction env signature = TxValue None ->
  fst (verify signature env w) = Return false.
Proof.
  intros Hrpc.
  unfold verify_transaction, signature_from_string, client_get_transaction.
  unfold_monad; simpl.
  destruct (Signature_from_string env signature); simpl; [| reflexivity].
  destruct Hrpc as [[message ->] | ->]; reflexivity.
Qed.

Lemma ledger_rejects_verify signature env w :
  ledger_rejects env signature expected_sender expected_receiver
                 expected_amount_sol ->
  fst (verify signature env w) = Return false.
Proof.
  intros [tx m e Hrpc Hmeta Herr | tx Hrpc Hmeta Hnone].
  - eapply verify_transaction_err_set; eassumption.
  - destruct (verify_transaction_total signature env w)
      as (b & w' & Heq & _).
    rewrite Heq. simpl. destruct b; [| reflexivity].
    exfalso. apply Hnone.
    destruct (verify_transaction_true signature env w)
      as (tx' & _ & Hrpc' & _ & Hex).
    { now rewrite Heq. }
    rewrite Hrpc in Hrpc'. now inversion Hrpc'; subst.
Qed.

End Verifier.

(** ** [confirm_purchase], case by case *)

Section Confirm.

Variable confirm_data : PurchaseConfirm.
Variables (env : Env) (w : World).

Local Abbreviation verify listing :=
  (verify_transaction (cf_transaction_signature confirm_data)
                      (cf_buyer_wallet confirm_data)
                      (creator_wallet listing) (price_sol listing) env w).

Lemma confirm_purchase_no_listing :
  listing_of confirm_data w = None ->
  confirm_purchase confirm_data env w
  = (Raise (HTTPException 404 "Listing not found"), w).
Proof.
  unfold listing_of. intros H. unfold confirm_purchase. unfold_monad.
  now rewrite H.
Qed.

Lemma confirm_purchase_already_confirmed j listing i existing :
  listing_of confirm_data w = Some (j, listing) ->
  existing_of confirm_data w = Some (i, existing) ->
  status existing = CONFIRMED ->
  confirm_purchase confirm_data env w = (Return existing, w).
Proof.
  unfold listing_of, existing_of. intros Hl He Hs.
  unfold confirm_purchase. unfold_monad. rewrite Hl, He, Hs. reflexivity.
Qed.

Lemma verified_db listing is_valid w1 :
  verify listing = (Return is_valid, w1) -> db w1 = db w.
Proof.
  intros Hv.
  destruct (verify_transaction_total (cf_buyer_wallet confirm_data)
              (creator_wallet listing) (price_sol listing)
              (cf_transaction_signature confirm_data) env w)
    as (b & w' & Heq & Hdb & _).
  rewrite Hv in Heq. now inversion Heq; subst.
Qed.

Lemma confirm_purchase_rejected j listing w1 :
  listing_of confirm_data w = Some (j, listing) ->
  (forall i p, existing_of confirm_data w = Some (i, p) ->
               status p <> CONFIRMED) ->
  verify listing = (Return false, w1) ->
  confirm_purchase confirm_data env w = (Raise verification_failed, w1).
Proof.
  unfold listing_of, existing_of. intros Hl Hex Hv.
  unfold confirm_purchase. unfold_monad. rewrite Hl.
  destruct (list_find _ (purchases (db w))) as [[i p] |] eqn:He.
  - specialize (Hex i p eq_refl).
    destruct (status p); [| congruence |]; now rewrite Hv.
  - now rewrite Hv.
Qed.

Lemma confirm_purchase_updates j listing w1 i existing :
  listing_of confirm_data w = Some (j, listing) ->
  existing_of confirm_data w = Some (i, existing) ->
  status existing <> CONFIRMED ->
  verify listing = (Return true, w1) ->
  confirm_purchase confirm_data env w
  = (Return (confirmed_now env existing),
     with_purchases w1 (<[i := confirmed_now env existing]> (purchases (db w)))).
Proof.
  intros Hl He Hs Hv. pose proof (verified_db _ _ _ Hv) as Hdb.
  revert Hl He. unfold listing_of, existing_of. intros Hl He.
  unfold confirm_purchase. unfold_monad. rewrite Hl, He.
  unfold update_purchase, with_purchases. unfold_monad.
  destruct (status existing); [| congruence |];
    rewrite Hv; simpl; rewrite Hdb; reflexivity.
Qed.

Lemma confirm_purchase_creates j listing w1 :
  listing_of confirm_data w = Some (j, listing) ->
  existing_of confirm_data w = None ->
  verify listing = (Return true, w1) ->
  confirm_purchase confirm_data env w
  = (Return (created_confirmed confirm_data env listing),
     with_purchases w1
       (purchases (db w) ++ [created_confirmed confirm_data env listing])).
Proof.
  intros Hl He Hv. pose proof (verified_db _ _ _ Hv) as Hdb.
  revert Hl He. unfold listing_of, existing_of. intros Hl He.
  unfold confirm_purchase. unfold_monad. rewrite Hl, He.
  unfold new_Purchase, add_purchase, with_purchases. unfold_monad.
  rewrite Hv; simpl; rewrite Hdb; reflexivity.
Qed.

(** A ledger that cannot be reached, or does not show the transaction
    yet, is answered like a rejection and nothing is written. *)
Lemma confirm_purchase_unavailable j listing :
  listing_of confirm_data w = Some (j, listing) ->
  (forall i p, existing_of confirm_data w = Some (i, p) ->
               status p <> CONFIRMED) ->
  (exists message,
     rpc_get_transaction env (cf_transaction_signature confirm_data)
     = TxRaises message)
  \/ rpc_get_transaction env (cf_transaction_signature confirm_data)
     = TxValue None ->
  fst (confirm_purchase confirm_data env w) = Raise verification_failed
  /\ db (snd (confirm_purchase confirm_data env w)) = db w.
Proof.
  intros Hl Hex Hrpc.
  pose proof (verify_transaction_unavailable (cf_buyer_wallet confirm_data)
                (creator_wallet listing) (price_sol listing)
                (cf_transaction_signature confirm_data) env w Hrpc) as Hfalse.
  destruct (verify listing) as [r w1] eqn:Hv. simpl in Hfalse. subst r.
  rewrite (confirm_purchase_rejected j listing w1 Hl Hex Hv). simpl.
  split; [reflexivity | eapply verified_db; exact Hv].
Qed.

(** Every way the call can leave the purchases table. The handler's
    branch that inserts a pending row is not among them: the verifier
    never raises. *)
Lemma confirm_purchase_cases :
  let r := confirm_purchase confirm_data env w in
  purchases (db (snd r)) = purchases (db w)
  \/ (exists i existing,
        existing_of confirm_data w = Some (i, existing)
        /\ status existing <> CONFIRMED
        /\ fst r = Return (confirmed_now env existing)
        /\ purchases (db (snd r))
           = <[i := confirmed_now env existing]> (purchases (db w)))
  \/ (exists j listing,
        listing_of confirm_data w = Some (j, listing)
        /\ existing_of confirm_data w = None
        /\ fst r = Return (created_confirmed confirm_data env listing)
        /\ purchases (db (snd r))
           = (purchases (db w)
              ++ [created_confirmed confirm_data env listing])%list).
Proof.
  cbv zeta.
  destruct (listing_of confirm_data w) as [[j listing] |] eqn:Hl.
  2: { rewrite (confirm_purchase_no_listing Hl). now left. }
  destruct (verify_transaction_total (cf_buyer_wallet confirm_data)
              (creator_wallet listing) (price_sol listing)
              (cf_transaction_signature confirm_data) env w)
    as (b & w1 & Hv & Hdb & _).
  destruct (existing_of confirm_data w) as [[i existing] |] eqn:He.
  - destruct (decide (status existing = CONFIRMED)) as [Hs | Hs].
    + rewrite (confirm_purchase_already_confirmed _ _ _ _ Hl He Hs).
      now left.
    + destruct b.
      * rewrite (confirm_purchase_updates _ _ _ _ _ Hl He Hs Hv).
        right; left. exists i, existing. simpl. auto.
      * rewrite (confirm_purchase_rejected j listing w1 Hl); auto.
        -- left. simpl. now rewrite Hdb.
        -- intros i' p' Heq. rewrite He in Heq. now inversion Heq; subst.
  - destruct b.
    + rewrite (confirm_purchase_creates _ _ _ Hl He Hv).
      right; right. exists j, listing. simpl. auto.
    + rewrite (confirm_purchase_rejected j listing w1 Hl); auto.
      * left. simpl. now rewrite Hdb.
      * intros i' p' Heq. rewrite He in Heq. discriminate.
Qed.

End Confirm.

(** ** [initiate_purchase] *)

Section Initiate.

Variable purchase_data : PurchaseCreate.
Variable env : Env.

Lemma create_transfer_transaction_purchases from_wallet to_wallet amount w :
  purchases (db (snd (create_transfer_transaction from_wallet to_wallet
                                                  amount env w)))
  = purchases (db w).
Proof.
  unfold create_transfer_transaction, pubkey_from_string,
    client_get_latest_blockhash. unfold_monad. simpl.
  destruct (Pubkey_from_string env from_wallet); simpl; [| reflexivity].
  destruct (Pubkey_from_string env to_wallet); simpl; [| reflexivity].
  destruct (sol_to_lamports amount); simpl; [| reflexivity].
  destruct (rpc_get_latest_blockhash env); reflexivity.
Qed.

Lemma get_priority_fee_estimate_total w :
  exists fee w', get_priority_fee_estimate env w = (Return fee, w')
                 /\ db w' = db w.
Proof.
  unfold get_priority_fee_estimate. unfold_monad.
  destruct (gateway_enabled env); simpl; [| eauto].
  destruct (gateway_priority_fee env) as [msg | code fee]; simpl; [eauto |].
  destruct code as [| c | c]; simpl; eauto.
  repeat (destruct c as [c | c |]; simpl; eauto).
Qed.

(** The part of [initiate_purchase] inside [try]. *)
Lemma initiate_purchase_try listing w res w' :
  try_except
    (do transaction_data <-
        create_transfer_transaction (pc_buyer_wallet purchase_data)
                                    (creator_wallet listing)
                                    (price_sol listing);
     do enabled <- ask gateway_enabled;
     do transaction_data <-
        (if enabled : bool then
           do fee <- get_priority_fee_estimate;
           if is_truthy fee
           then ret (with_priority_fee transaction_data fee)
           else ret transaction_data
         else ret transaction_data);
     ret {| transaction_data := transaction_data;
            init_listing := listing;
            init_amount_sol := price_sol listing |})
    (fun e =>
       raise (HTTPException 500
                ("Failed to create transaction: " ++ str e)))
    env w = (res, w') ->
  purchases (db w') = purchases (db w)
  /\ forall resp, res = Return resp ->
       init_listing resp = listing
       /\ init_amount_sol resp = price_sol listing.
Proof.
  unfold_monad.
  pose proof (create_transfer_transaction_purchases
                (pc_buyer_wallet purchase_data) (creator_wallet listing)
                (price_sol listing) w) as Hc.
  destruct (create_transfer_transaction _ _ _ env w) as [[td | ex] w1];
    simpl in Hc; simpl.
  2: { intros [= <- <-]. split; [exact Hc | discriminate]. }
  destruct (gateway_enabled env).
  - destruct (get_priority_fee_estimate_total w1) as (fee & w2 & -> & Hdb).
    destruct (is_truthy fee); simpl; intros [= <- <-]; rewrite Hdb, Hc;
      (split; [reflexivity | intros resp [= <-]; auto]).
  - simpl. intros [= <- <-]. split; [exact Hc | intros resp [= <-]; auto].
Qed.

(** The initiation writes no purchase, and what it returns is the
    active listing of that id with its price. *)
Lemma initiate_purchase_spec w res w' :
  initiate_purchase purchase_data env w = (res, w') ->
  purchases (db w') = purchases (db w)
  /\ forall resp, res = Return resp ->
       (exists j,
          list_find (fun l => listing_pk l = pc_listing_id purchase_data
                              /\ is_active l = true) (listings (db w))
          = Some (j, init_listing resp))
       /\ init_amount_sol resp = price_sol (init_listing resp).
Proof.
  unfold initiate_purchase.
  destruct (is_valid_solana_address _); simpl.
  2: { intros [= <- <-]. split; [reflexivity | discriminate]. }
  unfold bind at 1. unfold get_db at 1.
  destruct (list_find _ (listings (db w))) as [[j listing] |] eqn:Hl.
  2: { intros [= <- <-]. split; [reflexivity | discriminate]. }
  destruct (list_find _ (purchases (db w))) as [own |].
  { intros [= <- <-]. split; [reflexivity | discriminate]. }
  unfold bind at 1.
  match goal with
  | |- context [match list_find ?P (users (db w)) with _ => _ end] =>
      destruct (list_find P (users (db w))) as [u |]
  end.
  - unfold ret at 1. intros Hrun.
    destruct (initiate_purchase_try _ _ _ _ Hrun) as [Hp Hr].
    split; [exact Hp |]. intros resp Hresp.
    destruct (Hr resp Hresp) as [<- ->]. eauto.
  - unfold add_user. unfold bind at 1 2 3, utcnow, ask, get_db, put_db.
    intros Hrun.
    destruct (initiate_purchase_try _ _ _ _ Hrun) as [Hp Hr].
    split; [exact Hp |]. intros resp Hresp.
    destruct (Hr resp Hresp) as [<- ->]. eauto.
Qed.

End Initiate.

(** ** The signature lookup under the unique constraint *)

Lemma existing_of_unique confirm_data w p :
  signatures_unique w ->
  p ∈ purchases (db w) ->
  transaction_signature p = cf_transaction_signature confirm_data ->
  exists i, existing_of confirm_data w = Some (i, p).
Proof.
  unfold signatures_unique, existing_of. intros Hnd Hin Hsig.
  apply list_elem_of_lookup in Hin as [k Hk].
  destruct (list_find (fun p0 => transaction_signature p0
                                 = cf_transaction_signature confirm_data)
                      (purchases (db w))) as [[i q] |] eqn:Hfind.
  - apply list_find_Some in Hfind as (Hi & Hq & _).
    assert (i = k) as ->.
    { eapply NoDup_lookup; [exact Hnd | |];
        rewrite list_lookup_fmap; [rewrite Hi | rewrite Hk]; simpl;
        [reflexivity | congruence]. }
    exists k. congruence.
  - apply list_find_None in Hfind.
    rewrite Forall_forall in Hfind.
    exfalso. eapply Hfind; [| exact Hsig].
    apply list_elem_of_lookup. eauto.
Qed.

(** ** The verifier's decision *)

(** C8. A fetched transaction record whose execution-error field is set
    makes [verify_transaction] return [False], whatever its instruction
    list contains, a matching transfer included. *)
Theorem verify_transaction_rejects_execution_error
    signature sender receiver expected env w tx m e :
  rpc_get_transaction env signature = TxValue (Some tx) ->
  meta tx = Some m ->
  err m = Some e ->
  fst (verify_transaction signature sender receiver expected env w)
  = Return false.
Proof. apply verify_transaction_err_set. Qed.

(** The same instruction list is accepted when the error field is unset
    and rejected when it is set. *)
Lemma verify_transaction_rejects_execution_error_witness :
  fst (verify_transaction "sig-1" buyer creator 1.5
         (env_with (TxValue (Some (executed [transfer buyer creator 1500000000]))))
         (world_with 1.5 []))
  = Return true
  /\ fst (verify_transaction "sig-1" buyer creator 1.5
            (env_with (TxValue (Some (failed_on_chain
                                        [transfer buyer creator 1500000000]))))
            (world_with 1.5 []))
     = Return false.
Proof.
  split.
  - vm_compute. reflexivity.
  - apply (verify_transaction_rejects_execution_error
             "sig-1" buyer creator 1.5%float _ _
             (failed_on_chain [transfer buyer creator 1500000000])
             {| err := Some "InstructionError" |} "InstructionError");
      reflexivity.
Defined.

(** C3, as the code has it. For a fetched transaction without execution
    error: if verification accepts, some transfer instruction goes from
    the expected sender to the expected receiver with the binary64 value
    of [abs(amount_sol - expected_amount_sol)] strictly below [0.000001];
    conversely such an instruction makes it accept when every instruction
    can be read; and a difference of [0.000001] or more (so exactly the
    epsilon, or [0.00001]) is never within the tolerance. *)
Theorem verify_transaction_amount_tolerance
    signature sender receiver expected env w tx :
  Signature_from_string env signature = true ->
  rpc_get_transaction env signature = TxValue (Some tx) ->
  meta tx = Some {| err := None |} ->
  (fst (verify_transaction signature sender receiver expected env w)
   = Return true ->
   Exists (accepted sender receiver expected) (instructions tx))
  /\ (Forall readable (instructions tx) ->
      Exists (accepted sender receiver expected) (instructions tx) ->
      fst (verify_transaction signature sender receiver expected env w)
      = Return true)
  /\ (forall amount_sol,
        (epsilon <=? abs (amount_sol - expected))%float = true ->
        within_tolerance expected amount_sol = false).
Proof.
  intros Hsig Hrpc Hmeta. split; [| split].
  - intros H. apply verify_transaction_true in H as (tx' & _ & Hrpc' & _ & Hex).
    rewrite Hrpc in Hrpc'. now inversion Hrpc'; subst.
  - intros Hread Hex. eapply verify_transaction_accepts; eassumption.
  - intros amount_sol. unfold within_tolerance. apply leb_not_ltb.
Qed.

(** A transfer of exactly the price is accepted; one that is off by
    [0.00001] is outside the tolerance. *)
Lemma verify_transaction_amount_tolerance_witness :
  Signature_from_string (env_paying 1500000000) "sig-1" = true
  /\ rpc_get_transaction (env_paying 1500000000) "sig-1"
     = TxValue (Some (executed [transfer buyer creator 1500000000]))
  /\ fst (verify_transaction "sig-1" buyer creator 1.5
            (env_paying 1500000000) (world_with 1.5 []))
     = Return true
  /\ within_tolerance 1.5 (1.5 + 0.00001) = false.
Proof.
  pose proof (verify_transaction_amount_tolerance
                "sig-1" buyer creator 1.5%float (env_paying 1500000000)
                (world_with 1.5 [])
                (executed [transfer buyer creator 1500000000])
                eq_refl eq_refl eq_refl) as (_ & Hacc & Hrej).
  split; [reflexivity | split; [reflexivity | split]].
  - apply Hacc.
    + repeat constructor. exists "transfer". split; [reflexivity |].
      intros _. exists buyer, creator, 1500000000, 1.5%float.
      split; reflexivity.
    + left. exists 1500000000, 1.5%float.
      split; [reflexivity | split; vm_compute; reflexivity].
  - apply Hrej. vm_compute. reflexivity.
Defined.

(** C3 as stated fails: a transfer from the expected sender to the
    expected receiver whose amount differs from the price by exactly the
    epsilon is rejected. With price [0.000001] and 2000 lamports the
    binary64 difference is the epsilon itself; with price [0.5] and
    500001000 lamports the decimal difference is [0.000001]. With price 1
    and 1000001000 lamports the decimal difference is [0.000001] as well,
    its binary64 value falls just below the epsilon, and the transfer is
    accepted. *)
Lemma amount_differing_by_epsilon_is_rejected :
  lamports_to_sol 2000 = Return 0.000002%float
  /\ abs (0.000002 - 0.000001)%float = epsilon
  /\ fst (verify_transaction "sig-1" buyer creator 0.000001
            (env_paying 2000) (world_with 0.000001 []))
     = Return false
  /\ fst (verify_transaction "sig-1" buyer creator 0.5
            (env_paying 500001000) (world_with 0.5 []))
     = Return false
  /\ fst (verify_transaction "sig-1" buyer creator 1
            (env_paying 1000001000) (world_with 1 []))
     = Return true.
Proof. repeat split; vm_compute; reflexivity. Qed.

(** ** The confirmed-signature fast path *)

(** C5, as the code has it. When the purchases table holds a confirmed
    purchase with the request's signature and the request's [listing_id]
    names a listing, [confirm_purchase] returns that row and leaves the
    world as it was: no ledger call, no row written or inserted. *)
Theorem confirm_purchase_returns_confirmed
    confirm_data env w p j listing :
  signatures_unique w ->
  p ∈ purchases (db w) ->
  transaction_signature p = cf_transaction_signature confirm_data ->
  status p = CONFIRMED ->
  listing_of confirm_data w = Some (j, listing) ->
  confirm_purchase confirm_data env w = (Return p, w).
Proof.
  intros Hnd Hin Hsig Hst Hl.
  destruct (existing_of_unique confirm_data w p Hnd Hin Hsig) as [i He].
  eapply confirm_purchase_already_confirmed; eassumption.
Qed.

Lemma confirm_purchase_returns_confirmed_witness :
  confirm_purchase (confirm_request "sig-1") env_timeout
    (world_with 1.5 [purchase_with "p1" "sig-1" CONFIRMED (Some 250)])
  = (Return (purchase_with "p1" "sig-1" CONFIRMED (Some 250)),
     world_with 1.5 [purchase_with "p1" "sig-1" CONFIRMED (Some 250)]).
Proof.
  apply (confirm_purchase_returns_confirmed
           (confirm_request "sig-1") env_timeout
           (world_with 1.5 [purchase_with "p1" "sig-1" CONFIRMED (Some 250)])
           (purchase_with "p1" "sig-1" CONFIRMED (Some 250))
           0%nat (listing_at 1.5)).
  - repeat constructor. intros H. inversion H.
  - left.
  - reflexivity.
  - reflexivity.
  - reflexivity.
Defined.

(** C5 as stated fails: a call that carries the signature of a confirmed
    purchase and a [listing_id] that names no listing is answered 404,
    not with the stored row. *)
Lemma confirmed_signature_with_unknown_listing :
  existing_of {| cf_listing_id := "listing-404"; cf_buyer_wallet := buyer;
                 cf_transaction_signature := "sig-1" |}
    (world_with 1.5 [purchase_with "p1" "sig-1" CONFIRMED (Some 250)])
  = Some (0%nat, purchase_with "p1" "sig-1" CONFIRMED (Some 250))
  /\ fst (confirm_purchase
            {| cf_listing_id := "listing-404"; cf_buyer_wallet := buyer;
               cf_transaction_signature := "sig-1" |}
            (env_paying 1500000000)
            (world_with 1.5 [purchase_with "p1" "sig-1" CONFIRMED (Some 250)]))
     = Raise (HTTPException 404 "Listing not found").
Proof. split; vm_compute; reflexivity. Qed.

(** C10, as the code has it. Two requests that carry the signature of a
    confirmed purchase and whose [listing_id]s both name a listing get
    the same answer, the stored row, whatever their [listing_id] and
    [buyer_wallet] are: neither is compared with the row. *)
Theorem confirmed_fast_path_keys_on_signature
    confirm_data confirm_data' env env' w p :
  signatures_unique w ->
  p ∈ purchases (db w) ->
  status p = CONFIRMED ->
  cf_transaction_signature confirm_data = transaction_signature p ->
  cf_transaction_signature confirm_data' = transaction_signature p ->
  is_Some (listing_of confirm_data w) ->
  is_Some (listing_of confirm_data' w) ->
  confirm_purchase confirm_data' env' w = confirm_purchase confirm_data env w
  /\ fst (confirm_purchase confirm_data' env' w) = Return p.
Proof.
  intros Hnd Hin Hst Hsig Hsig' [[j l] Hl] [[j' l'] Hl'].
  destruct (existing_of_unique confirm_data w p Hnd Hin (eq_sym Hsig))
    as [i He].
  destruct (existing_of_unique confirm_data' w p Hnd Hin (eq_sym Hsig'))
    as [i' He'].
  rewrite (confirm_purchase_already_confirmed confirm_data env w
             j l i p Hl He Hst).
  rewrite (confirm_purchase_already_confirmed confirm_data' env' w
             j' l' i' p Hl' He' Hst).
  split; reflexivity.
Qed.

(** Another buyer's request with the same signature is served the row of
    the first buyer. *)
Lemma confirmed_fast_path_keys_on_signature_witness :
  fst (confirm_purchase
         {| cf_listing_id := "listing-1"; cf_buyer_wallet := other_buyer;
            cf_transaction_signature := "sig-1" |}
         env_timeout
         (world_with 1.5 [purchase_with "p1" "sig-1" CONFIRMED (Some 250)]))
  = Return (purchase_with "p1" "sig-1" CONFIRMED (Some 250))
  /\ buyer_wallet (purchase_with "p1" "sig-1" CONFIRMED (Some 250))
     <> other_buyer.
Proof.
  split.
  - apply (confirmed_fast_path_keys_on_signature
             (confirm_request "sig-1")
             {| cf_listing_id := "listing-1"; cf_buyer_wallet := other_buyer;
                cf_transaction_signature := "sig-1" |}
             (env_paying 1500000000) env_timeout
             (world_with 1.5 [purchase_with "p1" "sig-1" CONFIRMED (Some 250)])
             (purchase_with "p1" "sig-1" CONFIRMED (Some 250))).
    + repeat constructor. intros H. inversion H.
    + left.
    + reflexivity.
    + reflexivity.
    + reflexivity.
    + eexists. reflexivity.
    + eexists. reflexivity.
  - discriminate.
Defined.

(** C10 as stated fails: with a [listing_id] that differs from the one
    on the row and names no listing, the call is answered 404. *)
Lemma mismatched_listing_that_is_unknown :
  listing_id (purchase_with "p1" "sig-1" CONFIRMED (Some 250)) <> "listing-2"
  /\ status (purchase_with "p1" "sig-1" CONFIRMED (Some 250)) = CONFIRMED
  /\ fst (confirm_purchase
            {| cf_listing_id := "listing-2"; cf_buyer_wallet := buyer;
               cf_transaction_signature := "sig-1" |}
            env_timeout
            (world_with 1.5 [purchase_with "p1" "sig-1" CONFIRMED (Some 250)]))
     = Raise (HTTPException 404 "Listing not found").
Proof. split; [discriminate | split; vm_compute; reflexivity]. Qed.

(** ** Ledger rejections *)

(** C4, as the code has it. When the ledger's answer is a rejection, the
    call leaves every table as it was: no row changes status, none is
    inserted; and unless the signature is already confirmed the caller
    gets HTTP 400. *)
Theorem confirm_purchase_rejection_keeps_tables
    confirm_data env w j listing :
  listing_of confirm_data w = Some (j, listing) ->
  ledger_rejects env (cf_transaction_signature confirm_data)
                 (cf_buyer_wallet confirm_data)
                 (creator_wallet listing) (price_sol listing) ->
  db (snd (confirm_purchase confirm_data env w)) = db w
  /\ ((forall i p, existing_of confirm_data w = Some (i, p) ->
                   status p <> CONFIRMED) ->
      fst (confirm_purchase confirm_data env w) = Raise verification_failed).
Proof.
  intros Hl Hrej.
  pose proof (ledger_rejects_verify _ _ _ _ env w Hrej) as Hfalse.
  destruct (verify_transaction_total (cf_buyer_wallet confirm_data)
              (creator_wallet listing) (price_sol listing)
              (cf_transaction_signature confirm_data) env w)
    as (b & w1 & Hv & Hdb & _).
  rewrite Hv in Hfalse. simpl in Hfalse. injection Hfalse as ->.
  split.
  - destruct (existing_of confirm_data w) as [[i p] |] eqn:He.
    + destruct (decide (status p = CONFIRMED)) as [Hs | Hs].
      * now rewrite (confirm_purchase_already_confirmed _ _ _ _ _ _ _ Hl He Hs).
      * rewrite (confirm_purchase_rejected _ _ _ j listing w1 Hl); auto.
        intros i' p' Heq. rewrite He in Heq. now inversion Heq; subst.
    + rewrite (confirm_purchase_rejected _ _ _ j listing w1 Hl); auto.
      intros i' p' Heq. rewrite He in Heq. discriminate.
  - intros Hex. now rewrite (confirm_purchase_rejected _ _ _ j listing w1 Hl).
Qed.

Lemma confirm_purchase_rejection_keeps_tables_witness :
  db (snd (confirm_purchase (confirm_request "sig-1")
             (env_with (TxValue (Some (failed_on_chain
                                         [transfer buyer creator 1500000000]))))
             pending_world))
  = db pending_world
  /\ fst (confirm_purchase (confirm_request "sig-1")
            (env_with (TxValue (Some (failed_on_chain
                                        [transfer buyer creator 1500000000]))))
            pending_world)
     = Raise verification_failed.
Proof.
  destruct (confirm_purchase_rejection_keeps_tables
              (confirm_request "sig-1")
              (env_with (TxValue (Some (failed_on_chain
                                          [transfer buyer creator 1500000000]))))
              pending_world 0%nat (listing_at 1.5)) as [Hdb Hresp].
  - reflexivity.
  - apply (on_chain_failure _ _ _ _ _
             (failed_on_chain [transfer buyer creator 1500000000])
             {| err := Some "InstructionError" |} "InstructionError");
      reflexivity.
  - split; [exact Hdb |]. apply Hresp.
    intros i p Hfind. injection Hfind as _ <-. discriminate.
Defined.

(** C4 as stated fails: after an on-chain failure, and after a transfer
    of the wrong amount, the pending row of that signature is still
    pending; for a signature without a row none is created. *)
Lemma rejected_purchase_stays_pending :
  confirm_purchase (confirm_request "sig-1")
    (env_with (TxValue (Some (failed_on_chain
                                [transfer buyer creator 1500000000]))))
    pending_world
  = (Raise verification_failed,
     {| db := db pending_world;
        rpc_calls := [GetTransaction "sig-1"]; stdout := [] |})
  /\ purchases (db (snd (confirm_purchase (confirm_request "sig-1")
                           (env_paying 1000000000)
                           pending_world)))
     = [purchase_with "p1" "sig-1" PENDING None]
  /\ purchases (db (snd (confirm_purchase (confirm_request "sig-1")
                           (env_paying 1000000000) (world_with 1.5 []))))
     = [].
Proof. repeat split; vm_compute; reflexivity. Qed.

(** ** Where the code departs from the specification *)

(** C1. [confirm_purchase] has no ownership check: for a buyer who holds
    a confirmed purchase of the listing, a request with a new signature
    goes to the ledger and, once verified, inserts a second confirmed
    purchase for the same pair. [initiate_purchase] refuses the same
    buyer with 409. *)
Theorem confirm_purchase_confirms_owned_listing_again :
  existing_of (confirm_request "sig-2") owned_world = None
  /\ owned "listing-1" buyer owned_world
     = [purchase_with "p1" "sig-1" CONFIRMED (Some 250)]
  /\ confirm_purchase (confirm_request "sig-2") (env_paying 1500000000)
                      owned_world
     = (Return {| id := "uuid-new"; listing_id := "listing-1";
                  buyer_wallet := buyer; transaction_signature := "sig-2";
                  amount_sol := 1.5; status := CONFIRMED;
                  purchased_at := 300; confirmed_at := Some 300 |},
        {| db := {| users := []; listings := [listing_at 1.5];
                    purchases :=
                      [purchase_with "p1" "sig-1" CONFIRMED (Some 250);
                       {| id := "uuid-new"; listing_id := "listing-1";
                          buyer_wallet := buyer;
                          transaction_signature := "sig-2";
                          amount_sol := 1.5; status := CONFIRMED;
                          purchased_at := 300; confirmed_at := Some 300 |}] |};
           rpc_calls := [GetTransaction "sig-2"]; stdout := [] |})
  /\ length (owned "listing-1" buyer
               (snd (confirm_purchase (confirm_request "sig-2")
                       (env_paying 1500000000) owned_world))) = 2%nat
  /\ fst (initiate_purchase initiate_request (env_paying 1500000000)
                            owned_world)
     = Raise (HTTPException 409 "You already own this artwork").
Proof. repeat split; vm_compute; reflexivity. Qed.

(** C2. A ledger lookup that times out, or finds nothing yet, is
    answered like a rejection, with HTTP 400, and leaves no pending
    purchase behind: [verify_transaction] turns the exception into
    [False], so the handler that would insert the pending row does not
    run. The later call creates the confirmed row. *)
Theorem timeout_is_answered_as_rejection :
  confirm_purchase (confirm_request "sig-1") env_timeout (world_with 1.5 [])
  = (Raise verification_failed,
     {| db := db (world_with 1.5 []);
        rpc_calls := [GetTransaction "sig-1"];
        stdout := ["Transaction verification error: timed out"] |})
  /\ confirm_purchase (confirm_request "sig-1") env_not_visible
                      (world_with 1.5 [])
     = (Raise verification_failed,
        {| db := db (world_with 1.5 []);
           rpc_calls := [GetTransaction "sig-1"]; stdout := [] |})
  /\ fst (confirm_purchase (confirm_request "sig-1")
            (env_with (TxValue (Some (failed_on_chain []))))
            (world_with 1.5 []))
     = Raise verification_failed
  /\ purchases (db (snd (confirm_purchase (confirm_request "sig-1")
                           (env_paying 1500000000)
                           (snd (confirm_purchase (confirm_request "sig-1")
                                   env_timeout (world_with 1.5 []))))))
     = [{| id := "uuid-new"; listing_id := "listing-1";
           buyer_wallet := buyer; transaction_signature := "sig-1";
           amount_sol := 1.5; status := CONFIRMED;
           purchased_at := 300; confirmed_at := Some 300 |}].
Proof. repeat split; vm_compute; reflexivity. Qed.


(** ** The recorded amount *)

(** C6, as the code has it. A confirmation that inserts the purchase
    (no row had the signature) looks the listing up again: the verifier
    is given the listing's price at that moment and that price is the
    amount recorded. It is the amount [initiate_purchase] returned when
    the listing's price has not changed in between. *)
Theorem confirmation_records_current_price
    purchase_data env0 w0 resp w0' confirm_data env w p w' :
  initiate_purchase purchase_data env0 w0 = (Return resp, w0') ->
  cf_listing_id confirm_data = pc_listing_id purchase_data ->
  existing_of confirm_data w = None ->
  confirm_purchase confirm_data env w = (Return p, w') ->
  init_amount_sol resp = price_sol (init_listing resp)
  /\ exists j listing,
       listing_of confirm_data w = Some (j, listing)
       /\ listing_pk listing = listing_pk (init_listing resp)
       /\ fst (verify_transaction (cf_transaction_signature confirm_data)
                 (cf_buyer_wallet confirm_data) (creator_wallet listing)
                 (price_sol listing) env w) = Return true
       /\ status p = CONFIRMED
       /\ confirmed_at p = Some (clock env)
       /\ amount_sol p = price_sol listing
       /\ (price_sol listing = price_sol (init_listing resp) ->
           amount_sol p = init_amount_sol resp).
Proof.
  intros Hinit Hid He Hconf.
  destruct (initiate_purchase_spec _ _ _ _ _ Hinit) as [_ Hresp].
  destruct (Hresp resp eq_refl) as [[j0 Hfind0] Hamount].
  apply list_find_Some in Hfind0 as (_ & [Hpk0 _] & _).
  split; [exact Hamount |].
  destruct (listing_of confirm_data w) as [[j listing] |] eqn:Hl.
  2: { rewrite (confirm_purchase_no_listing _ env _ Hl) in Hconf.
       discriminate. }
  destruct (verify_transaction_total (cf_buyer_wallet confirm_data)
              (creator_wallet listing) (price_sol listing)
              (cf_transaction_signature confirm_data) env w)
    as (b & w1 & Hv & _).
  destruct b.
  - rewrite (confirm_purchase_creates _ _ _ _ _ _ Hl He Hv) in Hconf.
    injection Hconf as <- <-.
    exists j, listing. rewrite Hv. simpl.
    pose proof Hl as Hl'. unfold listing_of in Hl'.
    apply list_find_Some in Hl' as (_ & Hpk & _).
    repeat split; try reflexivity; congruence.
  - rewrite (confirm_purchase_rejected _ _ _ j listing w1 Hl) in Hconf;
      [discriminate | | exact Hv].
    intros i q Heq. rewrite He in Heq. discriminate.
Qed.

Lemma confirmation_records_current_price_witness :
  exists j listing,
    listing_of (confirm_request "sig-1") (world_with 1.5 [])
    = Some (j, listing)
    /\ amount_sol (created_confirmed (confirm_request "sig-1")
                     (env_paying 1500000000) (listing_at 1.5))
       = price_sol listing.
Proof.
  destruct (confirmation_records_current_price
              initiate_request (env_paying 1500000000) (world_with 1.5 [])
              _ _ (confirm_request "sig-1") (env_paying 1500000000)
              (world_with 1.5 []) _ _
              eq_refl eq_refl eq_refl eq_refl)
    as (_ & j & listing & Hl & _ & _ & _ & _ & Hamount & _).
  exists j, listing. split; [exact Hl | exact Hamount].
Defined.

(** C6 as stated fails: after [initiate_purchase] returned the price 1.5
    the listing is repriced to 2; a transfer of 2 is then confirmed with
    amount 2, and a transfer of the 1.5 that was returned is refused. *)
Lemma repriced_listing_is_confirmed_at_new_price :
  exists resp w1 p w2,
    initiate_purchase initiate_request (env_paying 2000000000)
                      (world_with 1.5 []) = (Return resp, w1)
    /\ init_amount_sol resp = 1.5%float
    /\ confirm_purchase (confirm_request "sig-1") (env_paying 2000000000)
                        (repriced 2 w1) = (Return p, w2)
    /\ status p = CONFIRMED
    /\ amount_sol p = 2%float
    /\ amount_sol p <> init_amount_sol resp
    /\ fst (confirm_purchase (confirm_request "sig-1")
              (env_paying 1500000000) (repriced 2 w1))
       = Raise verification_failed.
Proof.
  do 4 eexists.
  split; [vm_compute; reflexivity |].
  split; [reflexivity |].
  split; [vm_compute; reflexivity |].
  split; [reflexivity |].
  split; [reflexivity |].
  split; [| vm_compute; reflexivity].
  simpl. intros H.
  apply (f_equal (fun x => PrimFloat.eqb x 2)) in H.
  vm_compute in H. discriminate.
Qed.

(** ** The timestamp invariant *)

Section Timestamp.

Lemma confirmed_now_consistent env p :
  timestamp_consistent (confirmed_now env p).
Proof. split; [reflexivity | discriminate]. Qed.

Lemma created_confirmed_consistent confirm_data env listing :
  timestamp_consistent (created_confirmed confirm_data env listing).
Proof. split; [reflexivity | discriminate]. Qed.

(** What a step does to the purchases table. *)
Lemma step_purchases w w' :
  step w w' ->
  purchases (db w') = purchases (db w)
  \/ (exists i existing env,
        purchases (db w) !! i = Some existing
        /\ status existing <> CONFIRMED
        /\ purchases (db w')
           = <[i := confirmed_now env existing]> (purchases (db w)))
  \/ (exists confirm_data env listing,
        purchases (db w')
        = (purchases (db w)
           ++ [created_confirmed confirm_data env listing])%list).
Proof.
  intros [purchase_data env w0 | confirm_data env w0 | w0 w1 Hsame].
  - left.
    destruct (initiate_purchase purchase_data env w0) as [res w1] eqn:Hrun.
    apply initiate_purchase_spec in Hrun as [Hp _]. exact Hp.
  - destruct (confirm_purchase_cases confirm_data env w0)
      as [Hsame | [(i & e & He & Hs & _ & Hup) | (j & l & _ & _ & _ & Happ)]].
    + now left.
    + right; left. exists i, e, env.
      unfold existing_of in He. apply list_find_Some in He as (Hi & _).
      auto.
    + right; right. eauto.
  - now left.
Qed.

Lemma step_consistent w w' : consistent w -> step w w' -> consistent w'.
Proof.
  unfold consistent. intros Hw Hstep.
  destruct (step_purchases w w' Hstep)
    as [-> | [(i & e & env & _ & _ & ->) | (cd & env & l & ->)]].
  - exact Hw.
  - apply Forall_insert; [exact Hw | apply confirmed_now_consistent].
  - apply Forall_app. split; [exact Hw |].
    constructor; [apply created_confirmed_consistent | constructor].
Qed.

Lemma step_row_stable w w' : step w w' -> row_stable w w'.
Proof.
  intros Hstep i p Hp.
  destruct (step_purchases w w' Hstep)
    as [-> | [(i0 & e & env & He & Hs & ->) | (cd & env & l & ->)]].
  - exists p. split; [exact Hp | split; [reflexivity | congruence]].
  - destruct (decide (i = i0)) as [-> | Hne].
    + assert (p = e) as -> by congruence.
      exists (confirmed_now env e). split; [| split].
      * apply list_lookup_insert_eq. eapply lookup_lt_Some. exact Hp.
      * intros Hc. contradiction.
      * intros _. split; [exact Hs | reflexivity].
    + exists p. split; [| split; [reflexivity | congruence]].
      rewrite list_lookup_insert_ne; [exact Hp | congruence].
  - exists p. split; [| split; [reflexivity | congruence]].
    apply lookup_app_l_Some. exact Hp.
Qed.

Lemma reachable_consistent w : reachable w -> consistent w.
Proof.
  induction 1 as [w Hempty | w w' _ IH Hstep].
  - unfold consistent. rewrite Hempty. constructor.
  - eapply step_consistent; eassumption.
Qed.

End Timestamp.

(** C9. In every state reached through the endpoints from an empty
    purchases table, each purchase has [confirmed_at] set if and only if
    its status is confirmed. A request served in any state where that
    holds, whatever rows it contains, leaves it holding. And every
    request leaves each row in place and each confirmed row untouched,
    and writes [confirmed_at] only on a row that it makes confirmed. *)
Theorem confirmed_at_iff_confirmed :
  (forall w, reachable w ->
     forall p, p ∈ purchases (db w) ->
               (confirmed_at p <> None <-> status p = CONFIRMED))
  /\ (forall w w', consistent w -> step w w' -> consistent w')
  /\ (forall w w', step w w' -> row_stable w w').
Proof.
  split; [| split].
  - intros w Hreach p Hin.
    pose proof (reachable_consistent w Hreach) as Hw.
    unfold consistent in Hw. rewrite Forall_forall in Hw.
    exact (Hw p Hin).
  - apply step_consistent.
  - apply step_row_stable.
Qed.

(** After a first confirmation the one row is confirmed and stamped. *)
Lemma confirmed_at_iff_confirmed_witness :
  reachable (snd (confirm_purchase (confirm_request "sig-1")
                    (env_paying 1500000000) (world_with 1.5 [])))
  /\ (confirmed_at (created_confirmed (confirm_request "sig-1")
                       (env_paying 1500000000) (listing_at 1.5))
      <> None
      <-> status (created_confirmed (confirm_request "sig-1")
                    (env_paying 1500000000) (listing_at 1.5))
          = CONFIRMED).
Proof.
  assert (Hreach : reachable (snd (confirm_purchase (confirm_request "sig-1")
                     (env_paying 1500000000) (world_with 1.5 [])))).
  { eapply reachable_step; [| apply step_confirm].
    apply reachable_init. reflexivity. }
  split; [exact Hreach |].
  apply (proj1 confirmed_at_iff_confirmed _ Hreach).
  vm_compute. left.
Defined.

(** * Further properties of the code *)

(** ** The verifier's loop *)

Section Loop.

Variables (expected_sender expected_receiver : string).
Variable expected_amount_sol : float.

Local Abbreviation scan :=
  (scan_instructions expected_sender expected_receiver expected_amount_sol).
Local Abbreviation ok :=
  (accepted expected_sender expected_receiver expected_amount_sol).

Lemma scan_skipped ix rest env w :
  skipped ix = true -> scan (ix :: rest) env w = scan rest env w.
Proof.
  destruct ix as [| [ty info]]; simpl; [reflexivity |].
  destruct ty as [ty |]; [| discriminate]. unfold_monad; simpl.
  destruct (String.eqb ty "transfer"); [discriminate | reflexivity].
Qed.

Lemma scan_filter_skipped ixs env w :
  scan (List.filter (fun ix => negb (skipped ix)) ixs) env w = scan ixs env w.
Proof.
  induction ixs as [| ix rest IH]; [reflexivity |].
  cbn [List.filter]. destruct (skipped ix) eqn:Hs; cbn [negb].
  - rewrite scan_skipped by exact Hs. exact IH.
  - destruct ix as [| [ty info]]; [discriminate |].
    simpl. unfold_monad; simpl.
    destruct ty as [ty |]; [| reflexivity].
    destruct (String.eqb ty "transfer"); [| simpl in Hs; apply IH].
    destruct info as [[src dst units] |]; simpl; [| reflexivity].
    destruct src; [| reflexivity]. destruct dst; [| reflexivity].
    destruct units; [| reflexivity].
    destruct (lamports_to_sol _); [| reflexivity].
    destruct (_ && _); [reflexivity | apply IH].
Qed.

(** A readable instruction that is not accepted hands over to the next. *)
Lemma scan_passes ix rest env w :
  readable ix -> ~ ok ix -> scan (ix :: rest) env w = scan rest env w.
Proof.
  intros Hread Hno. destruct ix as [| [ty info]]; [reflexivity |].
  destruct Hread as (ty' & Hty & Hinfo). simpl in Hty. subst ty.
  simpl. unfold_monad; simpl.
  destruct (String.eqb_spec ty' "transfer") as [-> |]; [| reflexivity].
  destruct Hinfo as (src & dst & units & amount & Hi & Hsol); [reflexivity |].
  simpl in Hi. subst info. simpl. rewrite Hsol.
  destruct (String.eqb_spec src expected_sender) as [-> |]; [| reflexivity].
  destruct (String.eqb_spec dst expected_receiver) as [-> |]; [| reflexivity].
  simpl. destruct (_ <? _)%float eqn:Hlt; [| reflexivity].
  exfalso. apply Hno. exists units, amount. auto.
Qed.

(** An instruction with a read that fails ends the loop with the
    exception. *)
Lemma scan_unreadable ix rest env w :
  ~ readable ix -> exists e, scan (ix :: rest) env w = (Raise e, w).
Proof.
  intros Hno. destruct ix as [| [ty info]]; [exfalso; apply Hno; exact I |].
  simpl. unfold_monad; simpl.
  destruct ty as [ty |]; [| eauto].
  destruct (String.eqb_spec ty "transfer") as [-> | Hne].
  2: { exfalso. apply Hno. exists ty. split; [reflexivity | congruence]. }
  destruct info as [[src dst units] |]; simpl; [| eauto].
  destruct src as [src |]; [| eauto]. destruct dst as [dst |]; [| eauto].
  destruct units as [units |]; [| eauto].
  destruct (lamports_to_sol units) as [amount | e] eqn:Hsol; [| eauto].
  exfalso. apply Hno. exists "transfer". split; [reflexivity |].
  intros _. exists src, dst, units, amount. auto.
Qed.

Lemma scan_poisoned pre bad post env w :
  Forall readable pre -> ~ Exists ok pre -> ~ readable bad ->
  exists e, scan (pre ++ bad :: post)%list env w = (Raise e, w).
Proof.
  induction pre as [| ix pre IH]; intros Hread Hno Hbad.
  - apply scan_unreadable. exact Hbad.
  - inversion Hread as [| ? ? Hix Hpre]; subst.
    change ((ix :: pre) ++ bad :: post)%list
      with (ix :: (pre ++ bad :: post))%list.
    rewrite scan_passes; [| exact Hix | intros H; apply Hno; left; exact H].
    apply IH; [exact Hpre | intros H; apply Hno; right; exact H | exact Hbad].
Qed.

End Loop.


(** X2. Instructions without a parsed form and parsed instructions of a
    type other than ["transfer"] have no influence on the loop: dropping
    them from the list gives the same outcome. *)
Theorem scan_instructions_ignores_other_instructions
    sender receiver expected ixs env w :
  scan_instructions sender receiver expected
    (List.filter (fun ix => negb (skipped ix)) ixs) env w
  = scan_instructions sender receiver expected ixs env w.
Proof. apply scan_filter_skipped. Qed.

(** X3. A transfer-typed instruction one of whose reads fails (no
    [info], no [source], [destination] or [lamports]) makes the whole
    verification answer [False] when no instruction before it is
    accepted, whatever follows it: a matching transfer after it is not
    looked at. *)
Theorem unreadable_instruction_rejects_transaction
    signature sender receiver expected env w tx pre bad post :
  rpc_get_transaction env signature = TxValue (Some tx) ->
  instructions tx = (pre ++ bad :: post)%list ->
  Forall readable pre ->
  ~ Exists (accepted sender receiver expected) pre ->
  ~ readable bad ->
  fst (verify_transaction signature sender receiver expected env w)
  = Return false.
Proof.
  intros Hrpc Hixs Hread Hno Hbad.
  unfold verify_transaction, signature_from_string, client_get_transaction.
  unfold_monad; simpl.
  destruct (Signature_from_string env signature); simpl; [| reflexivity].
  rewrite Hrpc. simpl.
  destruct (meta tx) as [[[e |]] |]; simpl; try reflexivity.
  rewrite Hixs.
  match goal with
  | |- context [scan_instructions ?a ?b ?c ?l ?e ?w0] =>
      destruct (scan_poisoned a b c pre bad post e w0 Hread Hno Hbad)
        as [ex ->]
  end.
  reflexivity.
Qed.

(** A token transfer placed before the payment hides it; placed after,
    or replaced by a memo, it does not. *)
Lemma unreadable_instruction_rejects_transaction_witness :
  fst (verify_transaction "sig-1" buyer creator 1.5
         (env_with (TxValue (Some (executed
            [memo; token_transfer buyer creator;
             transfer buyer creator 1500000000]))))
         (world_with 1.5 []))
  = Return false
  /\ fst (verify_transaction "sig-1" buyer creator 1.5
            (env_with (TxValue (Some (executed
               [memo; transfer buyer creator 1500000000;
                token_transfer buyer creator]))))
            (world_with 1.5 []))
     = Return true.
Proof.
  split; [| vm_compute; reflexivity].
  apply (unreadable_instruction_rejects_transaction
           "sig-1" buyer creator 1.5%float _ _
           (executed [memo; token_transfer buyer creator;
                      transfer buyer creator 1500000000])
           [memo] (token_transfer buyer creator)
           [transfer buyer creator 1500000000]).
  - reflexivity.
  - reflexivity.
  - repeat constructor. exists "memo". split; [reflexivity | discriminate].
  - intros H. inversion H as [? ? (u & a & Heq & _) | ? ? H']; subst.
    + discriminate.
    + inversion H'.
  - intros (ty & Hty & Hinfo). injection Hty as <-.
    destruct Hinfo as (s & d & u & a & Hi & _); [reflexivity |].
    discriminate.
Defined.

(** ** Wallet addresses *)




(** ** [confirm_purchase] as a whole *)

Section Outcome.

Variable confirm_data : PurchaseConfirm.
Variables (env : Env) (w : World).

Local Abbreviation verify listing :=
  (verify_transaction (cf_transaction_signature confirm_data)
                      (cf_buyer_wallet confirm_data)
                      (creator_wallet listing) (price_sol listing) env w).

Lemma confirm_purchase_outcome :
  outcome confirm_data env w (confirm_purchase confirm_data env w).
Proof.
  destruct (listing_of confirm_data w) as [[j listing] |] eqn:Hl.
  2: { rewrite (confirm_purchase_no_listing _ _ _ Hl). now constructor. }
  destruct (verify_transaction_total (cf_buyer_wallet confirm_data)
              (creator_wallet listing) (price_sol listing)
              (cf_transaction_signature confirm_data) env w)
    as (b & w1 & Hv & _).
  destruct (existing_of confirm_data w) as [[i existing] |] eqn:He.
  - destruct (decide (status existing = CONFIRMED)) as [Hs | Hs].
    + rewrite (confirm_purchase_already_confirmed _ _ _ _ _ _ _ Hl He Hs).
      econstructor; eassumption.
    + destruct b.
      * rewrite (confirm_purchase_updates _ _ _ _ _ _ _ _ Hl He Hs Hv).
        econstructor; eassumption.
      * assert (Hex : forall i' p', existing_of confirm_data w = Some (i', p')
                                    -> status p' <> CONFIRMED).
        { intros i' p' Heq. rewrite He in Heq. now inversion Heq; subst. }
        rewrite (confirm_purchase_rejected _ _ _ j listing w1 Hl Hex Hv).
        econstructor; eassumption.
  - destruct b.
    + rewrite (confirm_purchase_creates _ _ _ _ _ _ Hl He Hv).
      econstructor; eassumption.
    + assert (Hex : forall i' p', existing_of confirm_data w = Some (i', p')
                                  -> status p' <> CONFIRMED).
      { intros i' p' Heq. rewrite He in Heq. discriminate. }
      rewrite (confirm_purchase_rejected _ _ _ j listing w1 Hl Hex Hv).
      econstructor; eassumption.
Qed.

End Outcome.

Section ConfirmWhole.

Variable confirm_data : PurchaseConfirm.
Variables (env : Env) (w : World).

Lemma elem_of_insert_inv {A} (l : list A) i x y :
  y ∈ <[i := x]> l -> y = x \/ y ∈ l.
Proof.
  intros Hin. apply list_elem_of_lookup in Hin as [k Hk].
  apply list_lookup_insert_Some in Hk as [(_ & -> & _) | (_ & Hk)].
  - now left.
  - right. eapply list_elem_of_lookup_2. exact Hk.
Qed.

Lemma existing_of_lookup i existing :
  existing_of confirm_data w = Some (i, existing) ->
  purchases (db w) !! i = Some existing
  /\ transaction_signature existing = cf_transaction_signature confirm_data.
Proof.
  unfold existing_of. intros H. apply list_find_Some in H as (Hi & Hp & _).
  auto.
Qed.

(** The world a verification leaves: the tables as they were, at most
    one more ledger call, for the request's signature. *)
Lemma verified_world listing b w1 :
  verify_transaction (cf_transaction_signature confirm_data)
                     (cf_buyer_wallet confirm_data)
                     (creator_wallet listing) (price_sol listing) env w
  = (Return b, w1) ->
  db w1 = db w
  /\ (rpc_calls w1 = rpc_calls w
      \/ rpc_calls w1
         = (rpc_calls w
            ++ [GetTransaction (cf_transaction_signature confirm_data)])%list).
Proof.
  intros Hv.
  destruct (verify_transaction_total (cf_buyer_wallet confirm_data)
              (creator_wallet listing) (price_sol listing)
              (cf_transaction_signature confirm_data) env w)
    as (b' & w' & Heq & Hdb & Hrpc).
  rewrite Hv in Heq. inversion Heq; subst. auto.
Qed.

End ConfirmWhole.


(** X6. [confirm_purchase] leaves the users and listings tables alone,
    removes no purchase and adds at most one, and makes at most one
    ledger call, a lookup of the request's signature. *)
Theorem confirm_purchase_frame confirm_data env w :
  let w' := snd (confirm_purchase confirm_data env w) in
  users (db w') = users (db w)
  /\ listings (db w') = listings (db w)
  /\ (length (purchases (db w')) = length (purchases (db w))
      \/ length (purchases (db w')) = S (length (purchases (db w))))
  /\ (rpc_calls w' = rpc_calls w
      \/ rpc_calls w'
         = (rpc_calls w
            ++ [GetTransaction (cf_transaction_signature confirm_data)])%list).
Proof.
  cbv zeta.
  pose proof (confirm_purchase_outcome confirm_data env w) as Hout.
  destruct (confirm_purchase confirm_data env w) as [res w'] eqn:Hrun.
  simpl.
  inversion Hout as [Hl | j l i e Hl He Hs | j l w1 Hl Hex Hv
                     | j l w1 i e Hl He Hs Hv | j l w1 Hl He Hv]; subst;
    try (destruct (verified_world _ _ _ _ _ _ Hv) as [Hdb Hrpc]); simpl.
  - auto.
  - auto.
  - rewrite Hdb. auto.
  - rewrite Hdb, length_insert. auto.
  - rewrite Hdb, length_app. simpl. rewrite Nat.add_1_r. auto.
Qed.

(** X7. The unique constraint on the transaction signature is kept by
    every request: [confirm_purchase] inserts a row only for a signature
    no row has, and an update leaves the signature as it is. *)
Theorem step_keeps_signatures_unique w w' :
  signatures_unique w -> step w w' -> signatures_unique w'.
Proof.
  unfold signatures_unique. intros Hnd Hstep. revert Hnd.
  destruct Hstep as [purchase_data env w0 | confirm_data env w0 | w0 w1 Hsame];
    intros Hnd.
  - destruct (initiate_purchase purchase_data env w0) as [res w1] eqn:Hrun.
    apply initiate_purchase_spec in Hrun as [Hp _]. simpl. now rewrite Hp.
  - pose proof (confirm_purchase_outcome confirm_data env w0) as Hout.
    destruct (confirm_purchase confirm_data env w0) as [res w1] eqn:Hrun.
    simpl.
    inversion Hout as [Hl | j l i e Hl He Hs | j l w2 Hl Hex Hv
                       | j l w2 i e Hl He Hs Hv | j l w2 Hl He Hv]; subst;
      try (destruct (verified_world _ _ _ _ _ _ Hv) as [Hdb _]); simpl.
    + exact Hnd.
    + exact Hnd.
    + now rewrite Hdb.
    + apply existing_of_lookup in He as [Hi _].
      rewrite list_fmap_insert. simpl.
      rewrite list_insert_id; [exact Hnd |].
      rewrite list_lookup_fmap, Hi. reflexivity.
    + rewrite fmap_app. apply NoDup_app. split; [exact Hnd |]. split.
      * intros sig Hin Hnew. simpl in Hnew.
        apply list_elem_of_singleton in Hnew. subst sig.
        apply list_elem_of_fmap in Hin as (p & Hsig & Hp).
        unfold existing_of in He. apply list_find_None in He.
        rewrite Forall_forall in He. apply (He p Hp). simpl in Hsig.
        congruence.
      * simpl. apply NoDup_singleton.
  - now rewrite Hsame.
Qed.

Lemma step_keeps_signatures_unique_witness :
  signatures_unique
    (snd (confirm_purchase (confirm_request "sig-2") (env_paying 1500000000)
            owned_world)).
Proof.
  apply (step_keeps_signatures_unique owned_world).
  - unfold signatures_unique. simpl. repeat constructor.
    intros H. inversion H.
  - apply step_confirm.
Defined.

(** X8. A confirmation that succeeded is repeated without effect: the
    same request, whatever the ledger says by then, gets the same
    purchase back and the world stays as the first call left it. *)
Theorem confirm_purchase_idempotent confirm_data env env' w p w' :
  confirm_purchase confirm_data env w = (Return p, w') ->
  confirm_purchase confirm_data env' w' = (Return p, w').
Proof.
  intros Hrun.
  pose proof (confirm_purchase_outcome confirm_data env w) as Hout.
  rewrite Hrun in Hout.
  inversion Hout as [Hl | j l i e Hl He Hs | j l w1 Hl Hex Hv
                     | j l w1 i e Hl He Hs Hv | j l w1 Hl He Hv]; subst.
  - eapply confirm_purchase_already_confirmed; eassumption.
  - destruct (verified_world _ _ _ _ _ _ Hv) as [Hdb _].
    eapply (confirm_purchase_already_confirmed _ _ _ j l i).
    + unfold listing_of in *. simpl. now rewrite Hdb.
    + unfold existing_of in *. simpl.
      apply list_find_Some in He as (Hi & Hsig & Hleast).
      apply list_find_Some. split; [| split].
      * apply list_lookup_insert_eq. eapply lookup_lt_Some. exact Hi.
      * exact Hsig.
      * intros k q Hk Hlt. rewrite list_lookup_insert_ne in Hk by lia.
        eapply Hleast; eassumption.
    + reflexivity.
  - destruct (verified_world _ _ _ _ _ _ Hv) as [Hdb _].
    eapply (confirm_purchase_already_confirmed _ _ _ j l
              (length (purchases (db w)))).
    + unfold listing_of in *. simpl. now rewrite Hdb.
    + unfold existing_of in *. simpl.
      apply list_find_None in He. rewrite Forall_lookup in He.
      apply list_find_Some. split; [| split].
      * apply list_lookup_middle. reflexivity.
      * reflexivity.
      * intros k q Hk Hlt. rewrite lookup_app_l in Hk by exact Hlt.
        eapply He. exact Hk.
    + reflexivity.
Qed.

Lemma confirm_purchase_idempotent_witness :
  confirm_purchase (confirm_request "sig-1") env_timeout
    (snd (confirm_purchase (confirm_request "sig-1") (env_paying 1500000000)
            pending_world))
  = confirm_purchase (confirm_request "sig-1") (env_paying 1500000000)
      pending_world.
Proof.
  rewrite (confirm_purchase_idempotent
             (confirm_request "sig-1") (env_paying 1500000000) env_timeout
             pending_world
             (purchase_with "p1" "sig-1" CONFIRMED (Some 300))
             (snd (confirm_purchase (confirm_request "sig-1")
                     (env_paying 1500000000) pending_world)));
    vm_compute; reflexivity.
Defined.

(** X9. A purchase is confirmed on the ledger's word only. When
    [confirm_purchase] returns a purchase, either the row was confirmed
    before the call, or the ledger returned for the request's signature
    an executed transaction that holds a transfer from the request's
    buyer to the listing's creator within the tolerance of the listing's
    price; the returned row then carries that signature and is stamped
    with the time of the call. *)
Theorem confirm_purchase_sound confirm_data env w p w' :
  confirm_purchase confirm_data env w = (Return p, w') ->
  (exists i, existing_of confirm_data w = Some (i, p)
             /\ status p = CONFIRMED /\ w' = w)
  \/ (exists j listing tx,
        listing_of confirm_data w = Some (j, listing)
        /\ Signature_from_string env (cf_transaction_signature confirm_data)
           = true
        /\ rpc_get_transaction env (cf_transaction_signature confirm_data)
           = TxValue (Some tx)
        /\ meta tx = Some {| err := None |}
        /\ Exists (accepted (cf_buyer_wallet confirm_data)
                            (creator_wallet listing) (price_sol listing))
                  (instructions tx)
        /\ transaction_signature p = cf_transaction_signature confirm_data
        /\ status p = CONFIRMED
        /\ confirmed_at p = Some (clock env)).
Proof.
  intros Hrun.
  pose proof (confirm_purchase_outcome confirm_data env w) as Hout.
  rewrite Hrun in Hout.
  inversion Hout as [Hl | j l i e Hl He Hs | j l w1 Hl Hex Hv
                     | j l w1 i e Hl He Hs Hv | j l w1 Hl He Hv]; subst.
  - left. eauto.
  - right.
    destruct (verify_transaction_true (cf_buyer_wallet confirm_data)
                (creator_wallet l) (price_sol l)
                (cf_transaction_signature confirm_data) env w)
      as (tx & Hsig & Hrpc & Hmeta & Hex); [now rewrite Hv |].
    apply existing_of_lookup in He as [_ Hkey].
    exists j, l, tx. repeat split; auto.
  - right.
    destruct (verify_transaction_true (cf_buyer_wallet confirm_data)
                (creator_wallet l) (price_sol l)
                (cf_transaction_signature confirm_data) env w)
      as (tx & Hsig & Hrpc & Hmeta & Hex); [now rewrite Hv |].
    exists j, l, tx. repeat split; auto.
Qed.

Lemma confirm_purchase_sound_witness :
  exists tx,
    rpc_get_transaction (env_paying 1500000000) "sig-1" = TxValue (Some tx)
    /\ Exists (accepted buyer creator 1.5) (instructions tx).
Proof.
  destruct (confirm_purchase_sound
              (confirm_request "sig-1") (env_paying 1500000000)
              (world_with 1.5 []) _ _ eq_refl)
    as [(i & Hfind & _) | (j & l & tx & Hl & _ & Hrpc & _ & Hex & _)].
  - discriminate.
  - injection Hl as _ <-. exists tx. split; [exact Hrpc | exact Hex].
Defined.

(** ** [initiate_purchase] as a whole *)

Section InitiateWhole.

Variable env : Env.

Lemma create_transfer_transaction_spec from_wallet to_wallet amount w r w' :
  create_transfer_transaction from_wallet to_wallet amount env w = (r, w') ->
  db w' = db w
  /\ stdout w' = stdout w
  /\ ((exists t, r = Return t
                 /\ instruction_type t = "transfer"
                 /\ from_pubkey t = from_wallet
                 /\ to_pubkey t = to_wallet
                 /\ sol_to_lamports amount = Return (td_lamports t)
                 /\ td_amount_sol t = amount
                 /\ priority_fee t = None
                 /\ rpc_calls w' = (rpc_calls w ++ [GetLatestBlockhash])%list)
      \/ (exists message,
            r = Raise (Exception ("Failed to create transaction: " ++ message))
            /\ (rpc_calls w' = rpc_calls w
                \/ rpc_calls w' = (rpc_calls w ++ [GetLatestBlockhash])%list))).
Proof.
  unfold create_transfer_transaction, pubkey_from_string,
    client_get_latest_blockhash. unfold_monad. simpl.
  destruct (Pubkey_from_string env from_wallet); simpl.
  2: { intros [= <- <-]. repeat split. right. eauto. }
  destruct (Pubkey_from_string env to_wallet); simpl.
  2: { intros [= <- <-]. repeat split. right. eauto. }
  destruct (sol_to_lamports amount) as [units | e]; simpl.
  2: { intros [= <- <-]. repeat split. right. eauto. }
  destruct (rpc_get_latest_blockhash env) as [msg | | hash height]; simpl;
    intros [= <- <-]; simpl; repeat split.
  - right. eauto.
  - right. eauto.
  - left. eexists. repeat split.
Qed.

Lemma get_priority_fee_estimate_world w :
  exists fee w', get_priority_fee_estimate env w = (Return fee, w')
                 /\ db w' = db w /\ rpc_calls w' = rpc_calls w.
Proof.
  unfold get_priority_fee_estimate. unfold_monad.
  destruct (gateway_enabled env); simpl; [| eauto 6].
  destruct (gateway_priority_fee env) as [msg | code fee]; simpl; [eauto 6 |].
  destruct code as [| c | c]; simpl; eauto 6.
  repeat (destruct c as [c | c |]; simpl; eauto 6).
Qed.

End InitiateWhole.

Section InitiateGuards.

Variable purchase_data : PurchaseCreate.
Variable env : Env.

(** The [try] block of [initiate_purchase], in full. *)
Lemma initiate_purchase_try_spec listing w res w' :
  try_except
    (do transaction_data <-
        create_transfer_transaction (pc_buyer_wallet purchase_data)
                                    (creator_wallet listing)
                                    (price_sol listing);
     do enabled <- ask gateway_enabled;
     do transaction_data <-
        (if enabled : bool then
           do fee <- get_priority_fee_estimate;
           if is_truthy fee
           then ret (with_priority_fee transaction_data fee)
           else ret transaction_data
         else ret transaction_data);
     ret {| transaction_data := transaction_data;
            init_listing := listing;
            init_amount_sol := price_sol listing |})
    (fun e =>
       raise (HTTPException 500
                ("Failed to create transaction: " ++ str e)))
    env w = (res, w') ->
  db w' = db w
  /\ ((exists resp,
         res = Return resp
         /\ init_listing resp = listing
         /\ init_amount_sol resp = price_sol listing
         /\ instruction_type (transaction_data resp) = "transfer"
         /\ from_pubkey (transaction_data resp) = pc_buyer_wallet purchase_data
         /\ to_pubkey (transaction_data resp) = creator_wallet listing
         /\ sol_to_lamports (price_sol listing)
            = Return (td_lamports (transaction_data resp))
         /\ td_amount_sol (transaction_data resp) = price_sol listing
         /\ rpc_calls w' = (rpc_calls w ++ [GetLatestBlockhash])%list)
      \/ (exists message,
            res = Raise (HTTPException 500
                    ("Failed to create transaction: "
                     ++ "Failed to create transaction: " ++ message)))).
Proof.
  unfold try_except, bind at 1.
  destruct (create_transfer_transaction _ _ _ env w) as [r w1] eqn:Hc.
  apply create_transfer_transaction_spec in Hc
    as (Hdb & _ & [(t & -> & Ht1 & Ht2 & Ht3 & Ht4 & Ht5 & _ & Hrpc)
                  | (message & -> & _)]).
  2: { unfold raise. intros [= <- <-]. split; [exact Hdb |]. right. eauto. }
  unfold bind at 1. unfold ask at 1.
  destruct (gateway_enabled env).
  - unfold bind at 1 2.
    destruct (get_priority_fee_estimate_world env w1)
      as (fee & w2 & -> & Hdb2 & Hrpc2).
    destruct (is_truthy fee); unfold ret; intros [= <- <-];
      (split; [congruence |]); left; eexists;
      (split; [reflexivity |]); simpl; rewrite Hrpc2; auto 10.
  - unfold bind at 1. unfold ret. intros [= <- <-].
    split; [exact Hdb |]. left. eexists.
    split; [reflexivity |]. simpl. auto 10.
Qed.

(** Once the address, the listing and the ownership check have passed. *)
Lemma initiate_purchase_past_guards w j listing res w' :
  is_valid_solana_address (pc_buyer_wallet purchase_data) = true ->
  list_find (fun l => listing_pk l = pc_listing_id purchase_data
                      /\ is_active l = true) (listings (db w))
  = Some (j, listing) ->
  list_find (fun p => listing_id p = pc_listing_id purchase_data
                      /\ buyer_wallet p = pc_buyer_wallet purchase_data
                      /\ status p = CONFIRMED) (purchases (db w)) = None ->
  initiate_purchase purchase_data env w = (res, w') ->
  users (db w')
  = (users (db w)
     ++ match list_find (fun u => wallet_address u
                                  = pc_buyer_wallet purchase_data)
                        (users (db w)) with
        | Some _ => []
        | None => [{| wallet_address := pc_buyer_wallet purchase_data;
                      username := None; role := BUYER;
                      created_at := clock env |}]
        end)%list
  /\ listings (db w') = listings (db w)
  /\ purchases (db w') = purchases (db w)
  /\ ((exists resp,
         res = Return resp
         /\ init_listing resp = listing
         /\ init_amount_sol resp = price_sol listing
         /\ instruction_type (transaction_data resp) = "transfer"
         /\ from_pubkey (transaction_data resp) = pc_buyer_wallet purchase_data
         /\ to_pubkey (transaction_data resp) = creator_wallet listing
         /\ sol_to_lamports (price_sol listing)
            = Return (td_lamports (transaction_data resp))
         /\ td_amount_sol (transaction_data resp) = price_sol listing
         /\ rpc_calls w' = (rpc_calls w ++ [GetLatestBlockhash])%list)
      \/ (exists message,
            res = Raise (HTTPException 500
                    ("Failed to create transaction: "
                     ++ "Failed to create transaction: " ++ message)))).
Proof.
  intros Hvalid Hl Hown. unfold initiate_purchase. rewrite Hvalid. simpl.
  unfold bind at 1. unfold get_db at 1. rewrite Hl, Hown.
  unfold bind at 1.
  destruct (list_find (fun u => wallet_address u
                                = pc_buyer_wallet purchase_data)
                      (users (db w))) as [u |].
  - unfold ret at 1. intros Hrun.
    apply initiate_purchase_try_spec in Hrun as [Hdb Hres].
    rewrite Hdb, app_nil_r. auto.
  - unfold add_user. unfold bind at 1 2 3, utcnow, ask, get_db, put_db.
    intros Hrun.
    apply initiate_purchase_try_spec in Hrun as [Hdb Hres].
    rewrite Hdb. simpl. auto.
Qed.

End InitiateGuards.

(** X10. [initiate_purchase] refuses a buyer who holds a confirmed
    purchase of the listing: the answer is 409 and nothing is done, no
    user is created and the ledger is not asked. *)
Theorem initiate_purchase_refuses_owner purchase_data env w j listing p :
  is_valid_solana_address (pc_buyer_wallet purchase_data) = true ->
  list_find (fun l => listing_pk l = pc_listing_id purchase_data
                      /\ is_active l = true) (listings (db w))
  = Some (j, listing) ->
  p ∈ purchases (db w) ->
  listing_id p = pc_listing_id purchase_data ->
  buyer_wallet p = pc_buyer_wallet purchase_data ->
  status p = CONFIRMED ->
  initiate_purchase purchase_data env w
  = (Raise (HTTPException 409 "You already own this artwork"), w).
Proof.
  intros Hvalid Hl Hin Hid Hbuyer Hst.
  unfold initiate_purchase. rewrite Hvalid. simpl.
  unfold bind at 1. unfold get_db at 1. rewrite Hl.
  destruct (list_find_elem_of
              (fun p => listing_id p = pc_listing_id purchase_data
                        /\ buyer_wallet p = pc_buyer_wallet purchase_data
                        /\ status p = CONFIRMED)
              (purchases (db w)) p Hin (conj Hid (conj Hbuyer Hst)))
    as [own Hown].
  rewrite Hown. reflexivity.
Qed.

(** After a confirmed purchase the same buyer cannot initiate again. *)
Lemma initiate_purchase_refuses_owner_witness :
  fst (initiate_purchase initiate_request env_timeout
         (snd (confirm_purchase (confirm_request "sig-1")
                 (env_paying 1500000000) (world_with 1.5 []))))
  = Raise (HTTPException 409 "You already own this artwork").
Proof.
  rewrite (initiate_purchase_refuses_owner
             initiate_request env_timeout
             (snd (confirm_purchase (confirm_request "sig-1")
                     (env_paying 1500000000) (world_with 1.5 [])))
             0%nat (listing_at 1.5)
             (created_confirmed (confirm_request "sig-1")
                (env_paying 1500000000) (listing_at 1.5))).
  - reflexivity.
  - vm_compute. reflexivity.
  - vm_compute. reflexivity.
  - vm_compute. left.
  - reflexivity.
  - reflexivity.
  - reflexivity.
Defined.

(** X11. Once the address is valid, the listing active and not owned,
    [initiate_purchase] leaves a user row for the buyer behind whether
    or not the transfer can be built; it writes to no other table; and
    its only failure is a 500 whose detail carries the prefix of both
    handlers, "Failed to create transaction: " twice. *)
Theorem initiate_purchase_bootstraps_buyer
    purchase_data env w j listing res w' :
  is_valid_solana_address (pc_buyer_wallet purchase_data) = true ->
  list_find (fun l => listing_pk l = pc_listing_id purchase_data
                      /\ is_active l = true) (listings (db w))
  = Some (j, listing) ->
  list_find (fun p => listing_id p = pc_listing_id purchase_data
                      /\ buyer_wallet p = pc_buyer_wallet purchase_data
                      /\ status p = CONFIRMED) (purchases (db w)) = None ->
  initiate_purchase purchase_data env w = (res, w') ->
  has_user (pc_buyer_wallet purchase_data) w'
  /\ (forall u, u ∈ users (db w) -> u ∈ users (db w'))
  /\ listings (db w') = listings (db w)
  /\ purchases (db w') = purchases (db w)
  /\ ((exists resp, res = Return resp)
      \/ (exists message,
            res = Raise (HTTPException 500
                    ("Failed to create transaction: "
                     ++ "Failed to create transaction: " ++ message)))).
Proof.
  intros Hvalid Hl Hown Hrun.
  destruct (initiate_purchase_past_guards _ _ _ _ _ _ _ Hvalid Hl Hown Hrun)
    as (Hu & Hls & Hps & Hres).
  split; [| split; [| split; [exact Hls | split; [exact Hps |]]]].
  - unfold has_user. rewrite Hu.
    destruct (list_find _ (users (db w))) as [[i u] |] eqn:Hfind.
    + apply list_find_Some in Hfind as (Hi & Hw & _).
      exists u. split; [| exact Hw]. rewrite app_nil_r.
      eapply list_elem_of_lookup_2. exact Hi.
    + exists {| wallet_address := pc_buyer_wallet purchase_data;
                username := None; role := BUYER; created_at := clock env |}.
      split; [| reflexivity].
      apply elem_of_app. right. apply list_elem_of_singleton. reflexivity.
  - intros u Hin. rewrite Hu. apply elem_of_app. now left.
  - destruct Hres as [(resp & -> & _) | Hfail]; [left; eauto | right; exact Hfail].
Qed.

(** The ledger is down: the initiation fails and the buyer is a user. *)
Lemma initiate_purchase_bootstraps_buyer_witness :
  has_user buyer
    (snd (initiate_purchase initiate_request
            {| Signature_from_string := fun _ => true;
               Pubkey_from_string := fun _ => true;
               rpc_get_transaction := fun _ => TxValue None;
               rpc_get_latest_blockhash := BhRaises "timed out";
               gateway_enabled := true;
               gateway_priority_fee := GwRaises "unreachable";
               clock := 300; fresh_uuid := "uuid-new" |}
            (world_with 1.5 [])))
  /\ fst (initiate_purchase initiate_request
            {| Signature_from_string := fun _ => true;
               Pubkey_from_string := fun _ => true;
               rpc_get_transaction := fun _ => TxValue None;
               rpc_get_latest_blockhash := BhRaises "timed out";
               gateway_enabled := true;
               gateway_priority_fee := GwRaises "unreachable";
               clock := 300; fresh_uuid := "uuid-new" |}
            (world_with 1.5 []))
     = Raise (HTTPException 500
                "Failed to create transaction: Failed to create transaction: timed out").
Proof.
  split; [| vm_compute; reflexivity].
  eapply (initiate_purchase_bootstraps_buyer
            initiate_request _ (world_with 1.5 []) 0%nat (listing_at 1.5)).
  - reflexivity.
  - reflexivity.
  - reflexivity.
  - apply surjective_pairing.
Defined.

(** X12. A successful initiation describes the transfer the verifier
    will look for: from the buyer to the listing's creator, of the
    listing's price, with [lamports] the price times 10^9 truncated; and
    it asked the ledger exactly once, for the latest blockhash. *)
Theorem initiate_purchase_transfer purchase_data env w resp w' :
  initiate_purchase purchase_data env w = (Return resp, w') ->
  pc_listing_id purchase_data = listing_pk (init_listing resp)
  /\ is_active (init_listing resp) = true
  /\ init_amount_sol resp = price_sol (init_listing resp)
  /\ instruction_type (transaction_data resp) = "transfer"
  /\ from_pubkey (transaction_data resp) = pc_buyer_wallet purchase_data
  /\ to_pubkey (transaction_data resp) = creator_wallet (init_listing resp)
  /\ td_amount_sol (transaction_data resp) = price_sol (init_listing resp)
  /\ sol_to_lamports (price_sol (init_listing resp))
     = Return (td_lamports (transaction_data resp))
  /\ rpc_calls w' = (rpc_calls w ++ [GetLatestBlockhash])%list.
Proof.
  intros Hrun.
  destruct (is_valid_solana_address (pc_buyer_wallet purchase_data))
    eqn:Hvalid.
  2: { unfold initiate_purchase in Hrun. rewrite Hvalid in Hrun.
       discriminate. }
  destruct (list_find (fun l => listing_pk l = pc_listing_id purchase_data
                                /\ is_active l = true) (listings (db w)))
    as [[j listing] |] eqn:Hl.
  2: { unfold initiate_purchase in Hrun. rewrite Hvalid in Hrun.
       simpl in Hrun. unfold bind at 1, get_db at 1 in Hrun.
       rewrite Hl in Hrun. discriminate. }
  destruct (list_find (fun p => listing_id p = pc_listing_id purchase_data
                                /\ buyer_wallet p = pc_buyer_wallet purchase_data
                                /\ status p = CONFIRMED) (purchases (db w)))
    as [own |] eqn:Hown.
  { unfold initiate_purchase in Hrun. rewrite Hvalid in Hrun.
    simpl in Hrun. unfold bind at 1, get_db at 1 in Hrun.
    rewrite Hl, Hown in Hrun. discriminate. }
  destruct (initiate_purchase_past_guards _ _ _ _ _ _ _ Hvalid Hl Hown Hrun)
    as (_ & _ & _ & [(r & Heq & H1 & H2 & H3 & H4 & H5 & H6 & H7 & H8)
                    | (message & Heq)]); [| discriminate].
  injection Heq as <-.
  apply list_find_Some in Hl as (_ & [Hpk Hact] & _).
  rewrite H1. repeat split; auto.
Qed.

Lemma initiate_purchase_transfer_witness :
  sol_to_lamports 1.5 = Return 1500000000
  /\ rpc_calls (snd (initiate_purchase initiate_request
                       (env_paying 1500000000) (world_with 1.5 [])))
     = [GetLatestBlockhash].
Proof.
  destruct (initiate_purchase_transfer
              initiate_request (env_paying 1500000000) (world_with 1.5 [])
              _ _ eq_refl)
    as (_ & _ & _ & _ & _ & _ & _ & Hunits & Hrpc).
  split; [exact Hunits | exact Hrpc].
Defined.

Section Gateway.

Variable purchase_data : PurchaseCreate.
Variable env : Env.

Lemma create_transfer_transaction_without_gateway a b c w :
  create_transfer_transaction a b c (without_gateway env) w
  = create_transfer_transaction a b c env w.
Proof.
  unfold create_transfer_transaction, pubkey_from_string,
    client_get_latest_blockhash. unfold_monad. simpl.
  destruct (Pubkey_from_string env a); simpl; [| reflexivity].
  destruct (Pubkey_from_string env b); simpl; [| reflexivity].
  destruct (sol_to_lamports c); simpl; [| reflexivity].
  destruct (rpc_get_latest_blockhash env); reflexivity.
Qed.

(** The [try] block with and without the gateway. *)
Lemma initiate_purchase_try_gateway listing w res w' res0 w0' :
  try_except
    (do transaction_data <-
        create_transfer_transaction (pc_buyer_wallet purchase_data)
                                    (creator_wallet listing)
                                    (price_sol listing);
     do enabled <- ask gateway_enabled;
     do transaction_data <-
        (if enabled : bool then
           do fee <- get_priority_fee_estimate;
           if is_truthy fee
           then ret (with_priority_fee transaction_data fee)
           else ret transaction_data
         else ret transaction_data);
     ret {| transaction_data := transaction_data;
            init_listing := listing;
            init_amount_sol := price_sol listing |})
    (fun e =>
       raise (HTTPException 500
                ("Failed to create transaction: " ++ str e)))
    env w = (res, w') ->
  try_except
    (do transaction_data <-
        create_transfer_transaction (pc_buyer_wallet purchase_data)
                                    (creator_wallet listing)
                                    (price_sol listing);
     do enabled <- ask gateway_enabled;
     do transaction_data <-
        (if enabled : bool then
           do fee <- get_priority_fee_estimate;
           if is_truthy fee
           then ret (with_priority_fee transaction_data fee)
           else ret transaction_data
         else ret transaction_data);
     ret {| transaction_data := transaction_data;
            init_listing := listing;
            init_amount_sol := price_sol listing |})
    (fun e =>
       raise (HTTPException 500
                ("Failed to create transaction: " ++ str e)))
    (without_gateway env) w = (res0, w0') ->
  db w' = db w0'
  /\ rpc_calls w' = rpc_calls w0'
  /\ match res, res0 with
     | Return a, Return b =>
         init_listing a = init_listing b
         /\ init_amount_sol a = init_amount_sol b
         /\ same_transfer (transaction_data a) (transaction_data b)
     | Raise e, Raise e0 => e = e0
     | _, _ => False
     end.
Proof.
  unfold try_except, bind at 1. intros Hrun.
  unfold bind at 1. rewrite create_transfer_transaction_without_gateway.
  revert Hrun.
  destruct (create_transfer_transaction _ _ _ env w) as [[t | e] w1].
  2: { unfold raise. intros [= <- <-] [= <- <-]. auto. }
  unfold bind at 1. unfold ask at 1. intros Hrun.
  unfold bind at 1 2. unfold ask at 1.
  change (gateway_enabled (without_gateway env)) with false.
  unfold ret. intros [= <- <-]. revert Hrun.
  destruct (gateway_enabled env).
  - unfold bind at 1 2.
    destruct (get_priority_fee_estimate_world env w1)
      as (fee & w2 & -> & Hdb2 & Hrpc2).
    unfold ret.
    destruct (is_truthy fee); intros [= <- <-]; simpl;
      unfold same_transfer; simpl; auto 12.
  - unfold bind at 1. unfold ret. intros [= <- <-]. simpl.
    unfold same_transfer. auto 12.
Qed.

End Gateway.

(** X13. The fee gateway cannot make an initiation fail or change what
    it decides: with the gateway enabled, whatever it answers, the
    request succeeds or fails exactly as with the gateway off, with the
    same error, the same tables and ledger calls, and on success the same
    listing, amount and transfer, the priority-fee fields apart. *)
Theorem initiate_purchase_gateway_is_optional purchase_data env w :
  db (snd (initiate_purchase purchase_data env w))
  = db (snd (initiate_purchase purchase_data (without_gateway env) w))
  /\ rpc_calls (snd (initiate_purchase purchase_data env w))
     = rpc_calls (snd (initiate_purchase purchase_data (without_gateway env) w))
  /\ match fst (initiate_purchase purchase_data env w),
           fst (initiate_purchase purchase_data (without_gateway env) w) with
     | Return a, Return b =>
         init_listing a = init_listing b
         /\ init_amount_sol a = init_amount_sol b
         /\ same_transfer (transaction_data a) (transaction_data b)
     | Raise e, Raise e0 => e = e0
     | _, _ => False
     end.
Proof.
  destruct (initiate_purchase purchase_data env w) as [res w'] eqn:H1.
  destruct (initiate_purchase purchase_data (without_gateway env) w)
    as [res0 w0'] eqn:H2.
  simpl. revert H1 H2. unfold initiate_purchase.
  destruct (is_valid_solana_address _); simpl.
  2: { intros [= <- <-] [= <- <-]. auto. }
  unfold bind at 1. unfold get_db at 1. intros H1.
  unfold bind at 1. unfold get_db at 1. revert H1.
  destruct (list_find _ (listings (db w))) as [[j listing] |].
  2: { intros [= <- <-] [= <- <-]. auto. }
  destruct (list_find _ (purchases (db w))) as [own |].
  { intros [= <- <-] [= <- <-]. auto. }
  unfold bind at 1. intros H1. unfold bind at 1. revert H1.
  match goal with
  | |- context [match list_find ?P (users (db w)) with _ => _ end] =>
      destruct (list_find P (users (db w))) as [u |]
  end.
  - unfold ret at 1. intros H1. unfold ret at 1. intros H2.
    eapply initiate_purchase_try_gateway; eassumption.
  - intros H1 H2. unfold add_user in H1, H2.
    unfold bind at 1 2 3 in H1. unfold bind at 1 2 3 in H2.
    unfold utcnow in H1, H2. unfold ask at 1 in H1. unfold ask at 1 in H2.
    unfold get_db, put_db in H1, H2.
    change (clock (without_gateway env)) with (clock env) in H2.
    exact (initiate_purchase_try_gateway purchase_data env listing
             _ _ _ _ _ H1 H2).
Qed.

(** ** Deactivated listings *)

Section Deactivated.

Lemma scan_instructions_fst sender receiver expected ixs env w w2 :
  fst (scan_instructions sender receiver expected ixs env w)
  = fst (scan_instructions sender receiver expected ixs env w2).
Proof.
  induction ixs as [| ix rest IH]; simpl; [reflexivity |].
  destruct ix as [| [ty info]]; [exact IH |]. unfold_monad; simpl.
  destruct ty as [ty |]; [| reflexivity].
  destruct (String.eqb ty "transfer"); [| exact IH].
  destruct info as [[src dst units] |]; simpl; [| reflexivity].
  destruct src; [| reflexivity]. destruct dst; [| reflexivity].
  destruct units; [| reflexivity].
  destruct (lamports_to_sol _); [| reflexivity].
  destruct (_ && _); [reflexivity | exact IH].
Qed.

(** The verifier's answer does not depend on the tables or the logs. *)
Lemma verify_transaction_fst signature sender receiver expected env w w2 :
  fst (verify_transaction signature sender receiver expected env w)
  = fst (verify_transaction signature sender receiver expected env w2).
Proof.
  unfold verify_transaction, signature_from_string, client_get_transaction.
  unfold_monad; simpl.
  destruct (Signature_from_string env signature); simpl; [| reflexivity].
  destruct (rpc_get_transaction env signature) as [msg | [tx |]];
    simpl; try reflexivity.
  destruct (meta tx) as [[[e |]] |]; simpl; try reflexivity.
  match goal with
  | |- context [scan_instructions ?a ?b ?c ?l ?e ?w0] =>
      match goal with
      | |- context [scan_instructions a b c l e ?w3] =>
          tryif constr_eq w0 w3 then fail else
            pose proof (scan_instructions_fst a b c l e w0 w3) as Hfst;
            destruct (scan_instructions a b c l e w0) as [[r | ex] w1];
            destruct (scan_instructions a b c l e w3) as [[r' | ex'] w1']
      end
  end; simpl in Hfst; simpl; try discriminate; congruence.
Qed.

(** [confirm_purchase] answers by the listing's creator and price and
    by the purchases table; nothing else in the world matters. *)
Lemma confirm_purchase_response_frame confirm_data env w w2 j l j2 l2 :
  purchases (db w2) = purchases (db w) ->
  listing_of confirm_data w = Some (j, l) ->
  listing_of confirm_data w2 = Some (j2, l2) ->
  creator_wallet l2 = creator_wallet l ->
  price_sol l2 = price_sol l ->
  fst (confirm_purchase confirm_data env w2)
  = fst (confirm_purchase confirm_data env w).
Proof.
  intros Hps Hl Hl2 Hc Hp.
  assert (He2 : existing_of confirm_data w2 = existing_of confirm_data w)
    by (unfold existing_of; now rewrite Hps).
  destruct (verify_transaction_total (cf_buyer_wallet confirm_data)
              (creator_wallet l) (price_sol l)
              (cf_transaction_signature confirm_data) env w)
    as (b & w1 & Hv & _).
  destruct (verify_transaction_total (cf_buyer_wallet confirm_data)
              (creator_wallet l2) (price_sol l2)
              (cf_transaction_signature confirm_data) env w2)
    as (b2 & w12 & Hv2 & _).
  assert (b2 = b) as ->.
  { pose proof (verify_transaction_fst
                  (cf_transaction_signature confirm_data)
                  (cf_buyer_wallet confirm_data)
                  (creator_wallet l) (price_sol l) env w w2) as Hfst.
    rewrite Hv in Hfst. rewrite <- Hc, <- Hp, Hv2 in Hfst. simpl in Hfst.
    congruence. }
  destruct (existing_of confirm_data w) as [[i e] |] eqn:He.
  - destruct (decide (status e = CONFIRMED)) as [Hs | Hs].
    + rewrite (confirm_purchase_already_confirmed _ _ _ _ _ _ _ Hl He Hs).
      now rewrite (confirm_purchase_already_confirmed _ _ _ _ _ _ _ Hl2 He2 Hs).
    + destruct b.
      * rewrite (confirm_purchase_updates _ _ _ _ _ _ _ _ Hl He Hs Hv).
        now rewrite (confirm_purchase_updates _ _ _ _ _ _ _ _ Hl2 He2 Hs Hv2).
      * rewrite (confirm_purchase_rejected _ _ _ j l w1 Hl); [| | exact Hv].
        2: { intros i' p' Heq. rewrite He in Heq. now inversion Heq; subst. }
        rewrite (confirm_purchase_rejected _ _ _ j2 l2 w12 Hl2);
          [reflexivity | | exact Hv2].
        intros i' p' Heq. rewrite He2 in Heq. now inversion Heq; subst.
  - destruct b.
    + rewrite (confirm_purchase_creates _ _ _ _ _ _ Hl He Hv).
      rewrite (confirm_purchase_creates _ _ _ _ _ _ Hl2 He2 Hv2).
      simpl. unfold created_confirmed. now rewrite Hp.
    + rewrite (confirm_purchase_rejected _ _ _ j l w1 Hl); [| | exact Hv].
      2: { intros i' p' Heq. rewrite He in Heq. discriminate. }
      rewrite (confirm_purchase_rejected _ _ _ j2 l2 w12 Hl2);
        [reflexivity | | exact Hv2].
      intros i' p' Heq. rewrite He2 in Heq. discriminate.
Qed.

Lemma delete_listing_world listing_id wallet env w w' :
  delete_listing listing_id wallet env w = (Return tt, w') ->
  exists i l,
    list_find (fun l => listing_pk l = listing_id) (listings (db w))
    = Some (i, l)
    /\ creator_wallet l = wallet
    /\ listings (db w') = <[i := deactivated l]> (listings (db w))
    /\ users (db w') = users (db w)
    /\ purchases (db w') = purchases (db w).
Proof.
  unfold delete_listing. unfold_monad.
  destruct (list_find _ (listings (db w))) as [[i l] |]; [| discriminate].
  destruct (String.eqb_spec (creator_wallet l) wallet) as [Hw | Hw];
    simpl; [| discriminate].
  intros [= <-]. exists i, l. simpl. auto.
Qed.

End Deactivated.

(** X14. A listing its creator has deleted can no longer be initiated,
    and can still be confirmed: [initiate_purchase] answers 404 for it,
    while [confirm_purchase], which does not look at [is_active],
    answers as it did before the deletion; [get_listing] still serves
    it, marked inactive. *)
Theorem deleted_listing_is_still_confirmed
    listing_id wallet env0 w w' :
  listings_unique w ->
  delete_listing listing_id wallet env0 w = (Return tt, w') ->
  (forall buyer env,
     is_valid_solana_address buyer = true ->
     initiate_purchase {| pc_listing_id := listing_id;
                          pc_buyer_wallet := buyer |} env w'
     = (Raise (HTTPException 404 "Listing not found or inactive"), w'))
  /\ (forall confirm_data env,
        cf_listing_id confirm_data = listing_id ->
        fst (confirm_purchase confirm_data env w')
        = fst (confirm_purchase confirm_data env w))
  /\ (forall env, exists l,
        get_listing listing_id env w' = (Return l, w')
        /\ is_active l = false).
Proof.
  intros Hnd Hdel.
  apply delete_listing_world in Hdel as (i & l & Hfind & _ & Hls & _ & Hps).
  pose proof Hfind as Hfind'.
  apply list_find_Some in Hfind' as (Hi & Hpk & Hleast).
  assert (Hfound :
    list_find (fun l0 => listing_pk l0 = listing_id) (listings (db w'))
    = Some (i, deactivated l)).
  { rewrite Hls. apply list_find_Some. split; [| split].
    - apply list_lookup_insert_eq. eapply lookup_lt_Some. exact Hi.
    - exact Hpk.
    - intros k x Hk Hlt. rewrite list_lookup_insert_ne in Hk by lia.
      eapply Hleast; eassumption. }
  split; [| split].
  3: { intros env. exists (deactivated l). unfold get_listing. unfold_monad.
       rewrite Hfound. auto. }
  - intros buyer env Hvalid. unfold initiate_purchase. simpl.
    rewrite Hvalid. simpl. unfold bind at 1. unfold get_db at 1.
    assert (Hnone :
      list_find (fun l0 => listing_pk l0 = listing_id /\ is_active l0 = true)
                (listings (db w')) = None).
    { apply list_find_None, Forall_lookup. intros k x Hk [Hx Hact].
      rewrite Hls in Hk.
      apply list_lookup_insert_Some in Hk as [(_ & <- & _) | (Hne & Hk)].
      - discriminate.
      - apply Hne. unfold listings_unique in Hnd.
        eapply NoDup_lookup; [exact Hnd | |];
          rewrite list_lookup_fmap; [rewrite Hi | rewrite Hk]; simpl;
          [reflexivity | congruence]. }
    now rewrite Hnone.
  - intros confirm_data env Hid.
    apply (confirm_purchase_response_frame confirm_data env w w'
             i l i (deactivated l)).
    + exact Hps.
    + unfold listing_of. rewrite Hid. exact Hfind.
    + unfold listing_of. rewrite Hid. exact Hfound.
    + reflexivity.
    + reflexivity.
Qed.

Lemma deleted_listing_is_still_confirmed_witness :
  fst (initiate_purchase initiate_request (env_paying 1500000000)
         (snd (delete_listing "listing-1" creator env_timeout
                 (world_with 1.5 []))))
  = Raise (HTTPException 404 "Listing not found or inactive")
  /\ fst (confirm_purchase (confirm_request "sig-1") (env_paying 1500000000)
            (snd (delete_listing "listing-1" creator env_timeout
                    (world_with 1.5 []))))
     = Return (created_confirmed (confirm_request "sig-1")
                 (env_paying 1500000000) (listing_at 1.5)).
Proof.
  destruct (deleted_listing_is_still_confirmed
              "listing-1" creator env_timeout (world_with 1.5 [])
              (snd (delete_listing "listing-1" creator env_timeout
                      (world_with 1.5 []))))
    as (Hinit & Hconf & _).
  - unfold listings_unique. simpl. repeat constructor.
    intros H. inversion H.
  - reflexivity.
  - split.
    + exact (f_equal fst (Hinit buyer (env_paying 1500000000) eq_refl)).
    + rewrite (Hconf (confirm_request "sig-1") (env_paying 1500000000));
        [| reflexivity].
      vm_compute. reflexivity.
Defined.

(** ** The users table *)

Section Users.

Variable env : Env.

Lemma create_user_created user_data w u w' :
  create_user user_data env w = (Return u, w') ->
  is_valid_solana_address (uc_wallet_address user_data) = true
  /\ u = {| wallet_address := uc_wallet_address user_data;
            username := uc_username user_data;
            role := uc_role user_data; created_at := clock env |}
  /\ list_find (fun v => wallet_address v = uc_wallet_address user_data)
               (users (db w)) = None
  /\ ~ Exists (violates u) (users (db w))
  /\ w' = {| db := {| users := users (db w) ++ [u];
                      listings := listings (db w);
                      purchases := purchases (db w) |};
             rpc_calls := rpc_calls w; stdout := stdout w |}.
Proof.
  unfold create_user.
  destruct (is_valid_solana_address _) eqn:Hvalid; simpl; [| discriminate].
  unfold bind at 1. unfold get_db at 1.
  destruct (list_find _ (users (db w))) as [found |] eqn:Hw; [discriminate |].
  unfold bind at 1.
  assert (Hcommit :
    forall w0 : World, w0 = w ->
      (do now <- utcnow;
       commit_new_user
         {| wallet_address := uc_wallet_address user_data;
            username := uc_username user_data;
            role := uc_role user_data; created_at := now |};;
       ret {| wallet_address := uc_wallet_address user_data;
              username := uc_username user_data;
              role := uc_role user_data; created_at := now |}) env w0
      = (Return u, w') ->
      u = {| wallet_address := uc_wallet_address user_data;
             username := uc_username user_data;
             role := uc_role user_data; created_at := clock env |}
      /\ ~ Exists (violates u) (users (db w))
      /\ w' = {| db := {| users := users (db w) ++ [u];
                          listings := listings (db w);
                          purchases := purchases (db w) |};
                 rpc_calls := rpc_calls w; stdout := stdout w |}).
  { intros w0 ->. unfold commit_new_user. unfold_monad.
    case_bool_decide as Hviol; simpl; [discriminate |].
    intros [= <- <-]. auto. }
  destruct (nonempty (uc_username user_data)).
  - destruct (list_find (fun v => username v = uc_username user_data)
                        (users (db w))) as [taken |]; [discriminate |].
    unfold ret at 1. intros Hrun.
    destruct (Hcommit w eq_refl Hrun) as (Hu & Hno & Hw').
    repeat split; assumption.
  - unfold ret at 1. intros Hrun.
    destruct (Hcommit w eq_refl Hrun) as (Hu & Hno & Hw').
    repeat split; assumption.
Qed.

(** A request that does not create the user changes nothing. *)
Lemma create_user_refused user_data w e w' :
  create_user user_data env w = (Raise e, w') -> w' = w.
Proof.
  unfold create_user.
  destruct (is_valid_solana_address _); simpl; [| now intros [= _ <-]].
  unfold bind at 1. unfold get_db at 1.
  destruct (list_find _ (users (db w))) as [found |]; [now intros [= _ <-] |].
  unfold bind at 1.
  destruct (nonempty (uc_username user_data)).
  - destruct (list_find (fun v => username v = uc_username user_data)
                        (users (db w))) as [taken |];
      [now intros [= _ <-] |].
    unfold commit_new_user. unfold_monad.
    case_bool_decide; simpl; [now intros [= _ <-] | discriminate].
  - unfold commit_new_user. unfold_monad.
    case_bool_decide; simpl; [now intros [= _ <-] | discriminate].
Qed.

Lemma update_user_world wallet new_name w res w' :
  update_user wallet new_name env w = (res, w') ->
  listings (db w') = listings (db w)
  /\ purchases (db w') = purchases (db w)
  /\ (users (db w') = users (db w)
      \/ exists i u,
           users (db w) !! i = Some u
           /\ wallet_address u = wallet
           /\ new_name <> None
           /\ list_find (fun v => username v = new_name
                                  /\ wallet_address v <> wallet)
                        (users (db w)) = None
           /\ users (db w')
              = <[i := {| wallet_address := wallet_address u;
                          username := new_name; role := role u;
                          created_at := created_at u |}]> (users (db w))).
Proof.
  unfold update_user. unfold_monad.
  destruct (list_find _ (users (db w))) as [[i u] |] eqn:Hfind.
  2: { intros [= <- <-]. auto. }
  apply list_find_Some in Hfind as (Hi & Hw & _).
  destruct (nonempty new_name) eqn:Hname; [| intros [= <- <-]; auto].
  destruct (list_find _ (users (db w))) as [taken |] eqn:Htaken.
  { intros [= <- <-]. auto. }
  intros [= <- <-]. simpl. repeat split. right. exists i, u.
  repeat split; auto. destruct new_name; [discriminate | discriminate].
Qed.

Lemma initiate_purchase_users purchase_data w res w' :
  initiate_purchase purchase_data env w = (res, w') ->
  users (db w') = users (db w)
  \/ (list_find (fun u => wallet_address u = pc_buyer_wallet purchase_data)
                (users (db w)) = None
      /\ users (db w')
         = (users (db w)
            ++ [{| wallet_address := pc_buyer_wallet purchase_data;
                   username := None; role := BUYER;
                   created_at := clock env |}])%list).
Proof.
  intros Hrun.
  destruct (is_valid_solana_address (pc_buyer_wallet purchase_data))
    eqn:Hvalid.
  2: { unfold initiate_purchase in Hrun. rewrite Hvalid in Hrun.
       injection Hrun as _ <-. now left. }
  destruct (list_find (fun l => listing_pk l = pc_listing_id purchase_data
                                /\ is_active l = true) (listings (db w)))
    as [[j listing] |] eqn:Hl.
  2: { unfold initiate_purchase in Hrun. rewrite Hvalid in Hrun.
       simpl in Hrun. unfold bind at 1, get_db at 1 in Hrun.
       rewrite Hl in Hrun. injection Hrun as _ <-. now left. }
  destruct (list_find (fun p => listing_id p = pc_listing_id purchase_data
                                /\ buyer_wallet p = pc_buyer_wallet purchase_data
                                /\ status p = CONFIRMED) (purchases (db w)))
    as [own |] eqn:Hown.
  { unfold initiate_purchase in Hrun. rewrite Hvalid in Hrun.
    simpl in Hrun. unfold bind at 1, get_db at 1 in Hrun.
    rewrite Hl, Hown in Hrun. injection Hrun as _ <-. now left. }
  destruct (initiate_purchase_past_guards _ _ _ _ _ _ _ Hvalid Hl Hown Hrun)
    as (Hu & _).
  destruct (list_find _ (users (db w))) as [found |].
  - left. now rewrite app_nil_r in Hu.
  - right. auto.
Qed.

End Users.

(** X15. A user that [create_user] returned is the one [get_user] finds
    under that wallet address afterwards, with the wallet, username and
    role of the request. *)
Theorem create_user_then_get_user user_data env env' w u w' :
  create_user user_data env w = (Return u, w') ->
  get_user (uc_wallet_address user_data) env' w' = (Return u, w')
  /\ wallet_address u = uc_wallet_address user_data
  /\ username u = uc_username user_data
  /\ role u = uc_role user_data.
Proof.
  intros Hrun.
  apply create_user_created in Hrun as (Hvalid & Hu & Hnone & _ & Hw').
  split; [| subst u; auto].
  unfold get_user. rewrite Hvalid. simpl. unfold_monad.
  assert (Hfind :
    list_find (fun v => wallet_address v = uc_wallet_address user_data)
              (users (db w')) = Some (length (users (db w)), u)).
  { rewrite Hw'. simpl. apply list_find_None in Hnone.
    rewrite Forall_lookup in Hnone.
    apply list_find_Some. split; [| split].
    - apply list_lookup_middle. reflexivity.
    - subst u. reflexivity.
    - intros k v Hk Hlt. rewrite lookup_app_l in Hk by exact Hlt.
      eapply Hnone. exact Hk. }
  now rewrite Hfind.
Qed.

Lemma create_user_then_get_user_witness :
  fst (get_user buyer env_timeout
         (snd (create_user {| uc_wallet_address := buyer;
                              uc_username := Some "ada";
                              uc_role := BUYER |}
                 env_timeout (world_with 1.5 []))))
  = Return {| wallet_address := buyer; username := Some "ada";
              role := BUYER; created_at := 300 |}.
Proof.
  destruct (create_user_then_get_user
              {| uc_wallet_address := buyer; uc_username := Some "ada";
                 uc_role := BUYER |}
              env_timeout env_timeout (world_with 1.5 []) _ _ eq_refl)
    as [Hget _].
  exact (f_equal fst Hget).
Defined.

(** X16. The endpoints that write users keep the table's constraints:
    after [create_user], [update_user] or [initiate_purchase] no two
    users share a wallet address and no two share a username. *)
Theorem users_stay_unique w :
  users_unique w -> usernames_unique w ->
  (forall user_data env,
     users_unique (snd (create_user user_data env w))
     /\ usernames_unique (snd (create_user user_data env w)))
  /\ (forall wallet new_name env,
        users_unique (snd (update_user wallet new_name env w))
        /\ usernames_unique (snd (update_user wallet new_name env w)))
  /\ (forall purchase_data env,
        users_unique (snd (initiate_purchase purchase_data env w))
        /\ usernames_unique (snd (initiate_purchase purchase_data env w))).
Proof.
  intros Hw Hn.
  assert (Happend : forall w' u,
    users (db w') = (users (db w) ++ [u])%list ->
    ~ Exists (violates u) (users (db w)) ->
    users_unique w' /\ usernames_unique w').
  { intros w' u Hu Hno. rewrite Exists_exists in Hno. split.
    - unfold users_unique. rewrite Hu, fmap_app. apply NoDup_app.
      split; [exact Hw |]. split; [| apply NoDup_singleton].
      intros a Ha Hnew. apply list_elem_of_singleton in Hnew. subst a.
      apply list_elem_of_fmap in Ha as (v & Heq & Hv).
      apply Hno. exists v. split; [exact Hv |]. left. congruence.
    - unfold usernames_unique. rewrite Hu. intros i j a b Hi Hj Hsome Heq.
      apply lookup_app_Some in Hi as [Hi | [Hlen Hi]];
        apply lookup_app_Some in Hj as [Hj | [Hlen' Hj]].
      + eapply Hn; eassumption.
      + apply list_lookup_singleton_Some in Hj as [_ <-].
        exfalso. apply Hno. exists a.
        split; [eapply list_elem_of_lookup_2; exact Hi |].
        right. split; congruence.
      + apply list_lookup_singleton_Some in Hi as [_ <-].
        exfalso. apply Hno. exists b.
        split; [eapply list_elem_of_lookup_2; exact Hj |].
        right. split; congruence.
      + apply list_lookup_singleton_Some in Hi as [Hi _].
        apply list_lookup_singleton_Some in Hj as [Hj _]. lia. }
  assert (Hsame : forall w', users (db w') = users (db w) ->
                             users_unique w' /\ usernames_unique w').
  { intros w' Hu. unfold users_unique, usernames_unique. now rewrite Hu. }
  split; [| split].
  - intros user_data env.
    destruct (create_user user_data env w) as [[u | e] w'] eqn:Hrun; simpl.
    + apply create_user_created in Hrun as (_ & _ & _ & Hno & ->).
      eapply Happend; [reflexivity | exact Hno].
    + apply create_user_refused in Hrun as ->. auto.
  - intros wallet new_name env.
    destruct (update_user wallet new_name env w) as [res w'] eqn:Hrun; simpl.
    apply update_user_world in Hrun
      as (_ & _ & [Hu | (i & u & Hi & Hwal & Hname & Hfree & Hu)]).
    + now apply Hsame.
    + apply list_find_None in Hfree. rewrite Forall_lookup in Hfree. split.
      * unfold users_unique. rewrite Hu, list_fmap_insert. simpl.
        rewrite list_insert_id; [exact Hw |].
        now rewrite list_lookup_fmap, Hi.
      * assert (Hclash : forall k v,
          users (db w) !! k = Some v -> username v = new_name -> k = i).
        { intros k v Hk Hv. destruct (decide (wallet_address v = wallet))
            as [Hsame' | Hother].
          - unfold users_unique in Hw.
            eapply NoDup_lookup; [exact Hw | |];
              rewrite list_lookup_fmap; [rewrite Hk | rewrite Hi]; simpl;
              [reflexivity | congruence].
          - exfalso. eapply Hfree; [exact Hk |]. auto. }
        unfold usernames_unique. rewrite Hu.
        intros a b x y Ha Hb Hsome Heq.
        apply list_lookup_insert_Some in Ha as [(-> & <- & _) | (Hna & Ha)];
          apply list_lookup_insert_Some in Hb as [(-> & <- & _) | (Hnb & Hb)].
        -- reflexivity.
        -- simpl in Heq. symmetry. eapply Hclash; [exact Hb | congruence].
        -- simpl in Heq. eapply Hclash; [exact Ha | congruence].
        -- eapply Hn; eassumption.
  - intros purchase_data env.
    destruct (initiate_purchase purchase_data env w) as [res w'] eqn:Hrun.
    simpl. apply initiate_purchase_users in Hrun as [Hu | [Hnone Hu]].
    + now apply Hsame.
    + eapply Happend; [exact Hu |].
      rewrite Exists_exists. intros (v & Hv & [Hwal | [Hname _]]).
      * apply list_find_None in Hnone. rewrite Forall_forall in Hnone.
        apply (Hnone v Hv). exact Hwal.
      * apply Hname. reflexivity.
Qed.

Lemma users_stay_unique_witness :
  users_unique
    (snd (create_user {| uc_wallet_address := buyer;
                         uc_username := Some "ada"; uc_role := BUYER |}
            env_timeout (world_with 1.5 []))).
Proof.
  apply (users_stay_unique (world_with 1.5 [])).
  - unfold users_unique. simpl. constructor.
  - intros i j u v Hi. inversion Hi.
Defined.

(** X17. [create_user] fails at the commit in one case only: the
    request's username is the empty string, which the handler's username
    check lets through, and a user with the empty username exists. *)
Theorem create_user_integrity_error user_data env w message w' :
  create_user user_data env w = (Raise (Exception message), w') ->
  uc_username user_data = Some ""
  /\ (exists v, v ∈ users (db w) /\ username v = Some "")
  /\ w' = w.
Proof.
  unfold create_user.
  destruct (is_valid_solana_address _); simpl; [| discriminate].
  unfold bind at 1. unfold get_db at 1.
  destruct (list_find (fun v => wallet_address v = uc_wallet_address user_data)
                      (users (db w))) as [found |] eqn:Hw; [discriminate |].
  apply list_find_None in Hw. rewrite Forall_forall in Hw.
  unfold bind at 1.
  destruct (nonempty (uc_username user_data)) eqn:Hname.
  - destruct (list_find (fun v => username v = uc_username user_data)
                        (users (db w))) as [taken |] eqn:Hfree;
      [discriminate |].
    apply list_find_None in Hfree. rewrite Forall_forall in Hfree.
    unfold commit_new_user. unfold_monad.
    case_bool_decide as Hviol; simpl; [| discriminate].
    exfalso. apply Exists_exists in Hviol as (v & Hv & [Hwal | [_ Hsame]]).
    + apply (Hw v Hv). exact Hwal.
    + apply (Hfree v Hv). exact Hsame.
  - unfold commit_new_user. unfold_monad.
    case_bool_decide as Hviol; simpl; [| discriminate].
    intros [= <- <-].
    apply Exists_exists in Hviol as (v & Hv & [Hwal | [Hsome Hsame]]).
    + exfalso. apply (Hw v Hv). exact Hwal.
    + simpl in Hsome, Hsame.
      destruct (uc_username user_data) as [name |]; [| congruence].
      simpl in Hname. apply negb_false_iff in Hname.
      apply String.eqb_eq in Hname. subst name. eauto.
Qed.

Lemma create_user_integrity_error_witness :
  exists v,
    v ∈ [{| wallet_address := creator; username := Some "";
            role := CREATOR; created_at := 100 |}]
    /\ username v = Some "".
Proof.
  destruct (create_user_integrity_error
              {| uc_wallet_address := buyer; uc_username := Some "";
                 uc_role := BUYER |}
              env_timeout
              {| db := {| users := [{| wallet_address := creator;
                                       username := Some ""; role := CREATOR;
                                       created_at := 100 |}];
                          listings := []; purchases := [] |};
                 rpc_calls := []; stdout := [] |}
              "IntegrityError" _ eq_refl) as (_ & Hex & _).
  exact Hex.
Defined.

(** ** Unlocked content *)

Section Unlocked.

Variable env : Env.

Lemma get_unlocked_content_spec buyer w content w' :
  get_unlocked_content buyer env w = (Return content, w') ->
  is_valid_solana_address buyer = true
  /\ w' = w
  /\ content
     = omap (unlocked_row (db w))
            (filter (fun p => buyer_wallet p = buyer /\ status p = CONFIRMED)
                    (purchases (db w))).
Proof.
  unfold get_unlocked_content.
  destruct (is_valid_solana_address buyer); simpl; [| discriminate].
  unfold_monad. intros [= <- <-]. auto.
Qed.

End Unlocked.

(** X18. [get_unlocked_content] shows a buyer only what that buyer has
    paid for: every entry comes from a confirmed purchase of that wallet
    and carries the id, title and file URL of the purchased listing. A
    pending or failed purchase, or another buyer's, unlocks nothing; and
    the call changes nothing. *)
Theorem unlocked_content_is_paid_for buyer env w content w' :
  get_unlocked_content buyer env w = (Return content, w') ->
  w' = w
  /\ forall c, c ∈ content ->
       exists p l,
         p ∈ purchases (db w)
         /\ buyer_wallet p = buyer
         /\ status p = CONFIRMED
         /\ l ∈ listings (db w)
         /\ listing_pk l = listing_id p
         /\ unlocked_listing_id c = listing_pk l
         /\ unlocked_title c = title l
         /\ unlocked_file_url c = file_url l.
Proof.
  intros Hrun. apply get_unlocked_content_spec in Hrun as (_ & -> & ->).
  split; [reflexivity |]. intros c Hc.
  apply list_elem_of_omap in Hc as (p & Hp & Hrow).
  apply list_elem_of_filter in Hp as [[Hbuyer Hst] Hp].
  unfold unlocked_row in Hrow.
  destruct (list_find _ (listings (db w))) as [[j l] |] eqn:Hl;
    [| discriminate].
  apply list_find_Some in Hl as (Hj & Hpk & _).
  injection Hrow as <-. exists p, l. simpl.
  repeat split; auto. eapply list_elem_of_lookup_2. exact Hj.
Qed.

Lemma unlocked_content_is_paid_for_witness :
  fst (get_unlocked_content buyer env_timeout pending_world) = Return []
  /\ exists p l,
       p ∈ purchases (db owned_world)
       /\ buyer_wallet p = buyer
       /\ status p = CONFIRMED
       /\ l ∈ listings (db owned_world)
       /\ listing_pk l = listing_id p
       /\ "listing-1" = listing_pk l
       /\ "Sunset" = title l
       /\ "https://storage/file-1" = file_url l.
Proof.
  split; [vm_compute; reflexivity |].
  destruct (unlocked_content_is_paid_for buyer env_timeout owned_world
              _ _ eq_refl) as [_ Hall].
  apply (Hall {| unlocked_listing_id := "listing-1";
                 unlocked_title := "Sunset";
                 unlocked_file_url := "https://storage/file-1";
                 unlocked_purchased_at := 250 |}).
  left.
Defined.

(** X19. What a buyer has just paid for is unlocked. After
    [confirm_purchase] has inserted the purchase, [get_unlocked_content]
    for the request's buyer, when that wallet address is well formed,
    lists the request's listing with its title and file URL, dated at
    the confirmation. *)
Theorem confirmed_purchase_is_unlocked confirm_data env env' w p w' :
  confirm_purchase confirm_data env w = (Return p, w') ->
  existing_of confirm_data w = None ->
  is_valid_solana_address (cf_buyer_wallet confirm_data) = true ->
  exists j l content,
    listing_of confirm_data w = Some (j, l)
    /\ get_unlocked_content (cf_buyer_wallet confirm_data) env' w'
       = (Return content, w')
    /\ {| unlocked_listing_id := cf_listing_id confirm_data;
          unlocked_title := title l;
          unlocked_file_url := file_url l;
          unlocked_purchased_at := clock env |} ∈ content.
Proof.
  intros Hrun He Hvalid.
  pose proof (confirm_purchase_outcome confirm_data env w) as Hout.
  rewrite Hrun in Hout.
  inversion Hout as [Hl | j l i e Hl He' Hs | j l w1 Hl Hex Hv
                     | j l w1 i e Hl He' Hs Hv | j l w1 Hl He' Hv]; subst;
    try congruence.
  destruct (verified_world _ _ _ _ _ _ Hv) as [Hdb _].
  exists j, l. eexists. split; [exact Hl |].
  unfold get_unlocked_content. rewrite Hvalid. simpl. unfold_monad.
  split; [reflexivity |].
  apply list_elem_of_omap.
  exists (created_confirmed confirm_data env l). split.
  - apply list_elem_of_filter. split; [split; reflexivity |].
    simpl. apply elem_of_app. right. apply list_elem_of_singleton.
    reflexivity.
  - unfold unlocked_row. simpl. rewrite Hdb.
    unfold listing_of in Hl. rewrite Hl. simpl.
    apply list_find_Some in Hl as (_ & Hpk & _). now rewrite Hpk.
Qed.

Lemma confirmed_purchase_is_unlocked_witness :
  exists content,
    fst (get_unlocked_content buyer env_timeout
           (snd (confirm_purchase (confirm_request "sig-1")
                   (env_paying 1500000000) (world_with 1.5 []))))
    = Return content
    /\ {| unlocked_listing_id := "listing-1";
          unlocked_title := "Sunset";
          unlocked_file_url := "https://storage/file-1";
          unlocked_purchased_at := 300 |} ∈ content.
Proof.
  destruct (confirmed_purchase_is_unlocked
              (confirm_request "sig-1") (env_paying 1500000000) env_timeout
              (world_with 1.5 []) _ _ eq_refl eq_refl eq_refl)
    as (j & l & content & Hl & Hget & Hin).
  injection Hl as _ <-.
  exists content. split; [exact (f_equal fst Hget) | exact Hin].
Defined.

(** ** What the purchases table holds *)

(** X20. The service stores confirmed purchases only: in every state
    reached through the endpoints from an empty purchases table, each
    purchase is confirmed; a pending or failed purchase is never
    written. *)
Theorem reachable_purchases_are_confirmed w :
  reachable w -> forall p, p ∈ purchases (db w) -> status p = CONFIRMED.
Proof.
  induction 1 as [w Hempty | w w' _ IH Hstep]; intros p Hp.
  - rewrite Hempty in Hp. inversion Hp.
  - destruct (step_purchases w w' Hstep)
      as [Hsame | [(i & e & env & _ & _ & Hupd) | (cd & env & l & Happ)]].
    + rewrite Hsame in Hp. auto.
    + rewrite Hupd in Hp. apply elem_of_insert_inv in Hp as [-> | Hp]; auto.
    + rewrite Happ in Hp. apply elem_of_app in Hp as [Hp | Hp]; [auto |].
      apply list_elem_of_singleton in Hp as ->. reflexivity.
Qed.

Lemma reachable_purchases_are_confirmed_witness :
  status (created_confirmed (confirm_request "sig-1")
            (env_paying 1500000000) (listing_at 1.5)) = CONFIRMED
  /\ purchases (db (snd (confirm_purchase (confirm_request "sig-1")
                           env_timeout (world_with 1.5 []))))
     = [].
Proof.
  split; [| vm_compute; reflexivity].
  apply (reachable_purchases_are_confirmed
           (snd (confirm_purchase (confirm_request "sig-1")
                   (env_paying 1500000000) (world_with 1.5 [])))).
  - eapply reachable_step; [| apply step_confirm].
    apply reachable_init. reflexivity.
  - vm_compute. left.
Defined.
